(** * QUARK graph visualizer plugin: a shallow embedding of
      [quark_plugin_graph_visualizer/graph_visualizer.py]

    The module has one class, [GraphVisualizer], with two methods:
    [preprocess] stores the networkx view of the incoming graph on the object,
    [postprocess] splits nodes and edges of the stored graph into the part that
    belongs to the solution and the rest, and issues the drawing calls.

    The embedding keeps the Python structure: the object is a record whose
    attribute [g] may be missing, exceptions are values of an error type, and
    the calls into networkx's drawing functions and matplotlib's [plt] are
    recorded, in call order, in the state of a small state-and-error monad.
    Those libraries check what they are given and may raise; which calls they
    reject is a parameter of the embedding. *)

From Stdlib Require Import ZArith.
From Stdlib Require Import Floats.PrimFloat.
From stdpp Require Import base decidable option list strings.

Local Open Scope Z_scope.
Set Warnings "-inexact-float".

(** ** Python exceptions raised on the paths that are modelled

    The first three are raised by the module's own statements.  The last is an
    exception that comes out of a call into matplotlib or networkx, with the
    library's description of it (class and message); it is kept apart from the
    module's own. *)

Inductive Exception : Type :=
  | AttributeError (attr : string)
  | IndexError
  | ValueError (msg : string)
  | LibraryError (what : string).

(** ** The state-and-error monad

    [Py S A] is a computation over a state [S] (the calls received so far by the
    plotting libraries) which either returns an [A] or raises.  The state at the
    point of the [raise] is kept, so that what was drawn before a failure can be
    read off. *)

Module PyMonad.

Definition Py (S A : Type) : Type := S → (Exception + A) * S.

Definition ret {S A} (a : A) : Py S A := λ s, (inr a, s).

Definition bind {S A B} (m : Py S A) (k : A → Py S B) : Py S B :=
  λ s, match m s with
       | (inr a, s') => k a s'
       | (inl e, s') => (inl e, s')
       end.

Definition raise {S A} (e : Exception) : Py S A := λ s, (inl e, s).

(** a library call that only records itself *)
Definition emit {S'} (c : S') : Py (list S') unit := λ s, (inr tt, s ++ [c]).

(** [if c: m] with no [else] *)
Definition when {S} (c : bool) (m : Py S unit) : Py S unit :=
  if c then m else ret tt.

(** [[f(i) for i in l]], where [f] may raise *)
Fixpoint for_each {S A B} (f : A → Py S B) (l : list A) : Py S (list B) :=
  match l with
  | [] => ret []
  | a :: l' => bind (f a) (λ b, bind (for_each f l') (λ bs, ret (b :: bs)))
  end.

End PyMonad.

Import PyMonad.

#[global] Instance Py_ret {S} : MRet (Py S) := λ A, @ret S A.
#[global] Instance Py_bind {S} : MBind (Py S) := λ A B k m, @bind S A B m k.

(** ** Python built-ins used by the module *)

Section Builtins.
Context {A : Type}.

(** [len(l)] *)
Definition len (l : list A) : Z := Z.of_nat (length l).

(** [range(n)]: empty when [n <= 0] *)
Definition range (n : Z) : list Z := Z.of_nat <$> seq 0 (Z.to_nat n).

(** [l[i]] on a list: a negative index counts from the end, an index out of
    range raises [IndexError]. *)
Definition getitem {S} (l : list A) (i : Z) : Py S A :=
  let j := if i <? 0 then i + len l else i in
  if (0 <=? j) && (j <? len l) then
    match l !! Z.to_nat j with
    | Some x => ret x
    | None => raise IndexError
    end
  else raise IndexError.

End Builtins.

(** [(l[i], l[i + 1])]: the element of the comprehension on line 46. *)
Definition link {S A} (l : list A) (i : Z) : Py S (A * A) :=
  a ← getitem l i; b ← getitem l (i + 1); mret (a, b).

(** ** The data of the module *)

(** [quark.core.Data]: the result wrapper both methods return. *)
Inductive Result (A : Type) : Type :=
  | Data (data : A).
Arguments Data {A} data.

(** [matplotlib.lines.Line2D], with the keyword arguments the module passes. *)
Record Line2D : Type := mkLine2D {
  xdata : list Z;
  ydata : list Z;
  marker : string;
  ls : string;
  color : string;
  label : string;
  markerfacecolor : string;
  markeredgewidth : Z;
  markersize : Z
}.

Section Visualizer.

(** Node identifiers are opaque; Python compares them with [==]. *)
Context {Node : Type} `{EqDecision Node}.

(** What [as_nx_graph()] returns: [nodes()] and [edges()] in iteration
    order. *)
Record NxGraph : Type := mkNxGraph {
  nodes : list Node;
  edges : list (Node * Node)
}.

(** [quark.interface_types.Graph] and its conversion are outside this
    repository. *)
Context {Graph : Type} (as_nx_graph : Graph → NxGraph).

(** [nx.spring_layout]: a dict from node to coordinates, as the list of its
    items.  The layout is unseeded; the function stands for the outcome of
    the one call a run makes. *)
Context {Coord : Type} (spring_layout : NxGraph → list (Node * Coord)).

(** [quark.interface_types.Other[list]] *)
Record Other : Type := mkOther { data : list Node }.

(** The calls the module makes into networkx's drawing functions and into
    [matplotlib.pyplot], with the arguments it passes.  A keyword that the
    module leaves out is [None]. *)
Inductive PlotCall : Type :=
  | draw_networkx_nodes (G : NxGraph) (pos : list (Node * Coord))
      (nodelist : list Node) (node_size : Z) (node_color : string)
  | draw_networkx_labels (G : NxGraph) (pos : list (Node * Coord))
      (labels : list (Node * Node)) (font_size : Z)
      (font_weight : option string) (font_color : string)
  | draw_networkx_edges (G : NxGraph) (pos : list (Node * Coord))
      (edgelist : list (Node * Node)) (width : float) (edge_color : string)
  | plt_legend (handles : list Line2D) (loc : string)
  | plt_savefig (fname : string)
  | plt_show.

(** What the plotting libraries refuse.  [Line2D_error] is the check of the
    [Line2D] constructor on its arguments (marker, line style, colours);
    [call_error] is the check a drawing or [plt] call makes, given the calls
    the figure has received so far.  [Some what] is the exception raised,
    [None] a normal return. *)
Record PlotLibrary : Type := mkPlotLibrary {
  Line2D_error : Line2D → option string;
  call_error : list PlotCall → PlotCall → option string
}.

(** The object: the ten dataclass fields, and the attribute [g] that only
    [preprocess] sets. *)
Record GraphVisualizer : Type := mkGraphVisualizer {
  highlight_nodes : bool;
  highlight_edges : bool;
  node_size : Z;
  node_shape : string;
  edge_width : float;
  edge_style : string;
  font_size : Z;
  solution_type : string;
  save_path : string;
  show_plot : bool;
  g : option NxGraph
}.

(** The generated [__init__]: it sets the ten fields and nothing else. *)
Definition init (highlight_nodes highlight_edges : bool) (node_size : Z)
    (node_shape : string) (edge_width : float) (edge_style : string)
    (font_size : Z) (solution_type save_path : string) (show_plot : bool)
    : GraphVisualizer :=
  mkGraphVisualizer highlight_nodes highlight_edges node_size node_shape
    edge_width edge_style font_size solution_type save_path show_plot None.

(** [GraphVisualizer()] with the field defaults. *)
Definition default : GraphVisualizer :=
  init false false 300 "o" 1%float "solid" 12 "path" "" true.

Abbreviation Plt := (Py (list PlotCall)).

(** [self.g] *)
Definition self_g (self : GraphVisualizer) : Plt NxGraph :=
  match g self with
  | Some gr => ret gr
  | None => raise (AttributeError "g")
  end.

(** [preprocess]: the result, and the object after the assignment to
    [self.g]. *)
Definition preprocess (self : GraphVisualizer) (data : Graph)
    : Result Graph * GraphVisualizer :=
  let self' :=
    mkGraphVisualizer (highlight_nodes self) (highlight_edges self)
      (node_size self) (node_shape self) (edge_width self) (edge_style self)
      (font_size self) (solution_type self) (save_path self)
      (show_plot self) (Some (as_nx_graph data)) in
  (Data data, self').

(** The names [postprocess] binds before it starts to draw. *)
Record Locals : Type := mkLocals {
  included_nodes : list Node;
  excluded_nodes : list Node;
  pos : list (Node * Coord);
  included_pos : list (Node * Node);
  excluded_pos : list (Node * Node);
  included_edges : list (Node * Node);
  excluded_edges : list (Node * Node)
}.

(** Lines 46-48: the edges a path solution implies.
<<
  edge_list = [(data.data[i], data.data[i + 1]) for i in range(len(data.data) - 1)]
  if len(data.data) > 2:
      edge_list.append((data.data[-1], data.data[0]))
>> *)
Definition path_edge_list (sol : list Node) : Plt (list (Node * Node)) :=
  edge_list ←
    for_each (link sol) (range (len sol - 1));
  if 2 <? len sol then
    a ← getitem sol (-1); b ← getitem sol 0;
    mret (edge_list ++ [(a, b)])
  else mret edge_list.

(** Lines 40-55 of [postprocess]: the two node lists, the layout, the two
    label dicts and, by [solution_type], the two edge lists. *)
Definition classify (self : GraphVisualizer) (data : Other) : Plt Locals :=
  let sol := data.(Visualizer.data) in
  gr ← self_g self;
  let included_nodes := filter (λ node, node ∈ sol) (nodes gr) in
  let excluded_nodes := filter (λ node, node ∉ sol) (nodes gr) in
  let pos := spring_layout gr in
  let included_pos :=
    (λ item, (item.1, item.1)) <$> filter (λ item, item.1 ∈ sol) pos in
  let excluded_pos :=
    (λ item, (item.1, item.1)) <$> filter (λ item, item.1 ∉ sol) pos in
  if String.eqb (solution_type self) "path" then
    edge_list ← path_edge_list sol;
    let included_edges :=
      filter (λ e, e ∈ edge_list ∨ (e.2, e.1) ∈ edge_list) (edges gr) in
    let excluded_edges := filter (λ e, e ∉ included_edges) (edges gr) in
    mret (mkLocals included_nodes excluded_nodes pos included_pos
            excluded_pos included_edges excluded_edges)
  else if String.eqb (solution_type self) "set" then
    let included_edges :=
      filter (λ e, e.1 ∈ sol ∧ e.2 ∈ sol) (edges gr) in
    let excluded_edges := filter (λ e, e ∉ included_edges) (edges gr) in
    mret (mkLocals included_nodes excluded_nodes pos included_pos
            excluded_pos included_edges excluded_edges)
  else
    raise (ValueError ("solution_type must be 'path' or 'set', and not "
                       +:+ solution_type self)).

Context (lib : PlotLibrary).

(** [Line2D(...)]: the constructor returns the object or raises. *)
Definition new_Line2D (args : Line2D) : Plt Line2D :=
  match Line2D_error lib args with
  | Some what => raise (LibraryError what)
  | None => ret args
  end.

(** A call into networkx's drawing functions or [plt]: it raises, and the
    figure is left with the calls that returned, or it returns and is
    recorded. *)
Definition call (c : PlotCall) : Plt unit :=
  λ s, match call_error lib s c with
       | Some what => raise (LibraryError what) s
       | None => emit c s
       end.

(** [postprocess]: lines 40-55 are [classify]; lines 56-110 follow it
    statement by statement.  The two [Line2D] objects of [legend_elements]
    are built on every run, before the first drawing call. *)
Definition postprocess (self : GraphVisualizer) (data : Other)
    : Plt (Result Other) :=
  l ← classify self data;
  let mark_solution_nodes :=
    if highlight_nodes self then "red" else "black" in
  let mark_solution_edges :=
    if highlight_edges self then "red" else "black" in
  included_handle ←
    new_Line2D (mkLine2D [0] [0] (node_shape self) (edge_style self)
                  mark_solution_edges "Included" mark_solution_nodes 0 10);
  excluded_handle ←
    new_Line2D (mkLine2D [0] [0] (node_shape self) (edge_style self)
                  "black" "Excluded" "black" 0 10);
  let legend_elements := [included_handle; excluded_handle] in
  gr ← self_g self;
  call (draw_networkx_nodes gr (pos l) (included_nodes l) (node_size self)
          mark_solution_nodes);;
  call (draw_networkx_nodes gr (pos l) (excluded_nodes l) (node_size self)
          "black");;
  call (draw_networkx_labels gr (pos l) (included_pos l) (font_size self)
          (Some "bold") "white");;
  call (draw_networkx_labels gr (pos l) (excluded_pos l) (font_size self)
          None "white");;
  call (draw_networkx_edges gr (pos l) (excluded_edges l)
          (PrimFloat.mul (edge_width self) 0.8%float) "black");;
  call (draw_networkx_edges gr (pos l) (included_edges l) (edge_width self)
          mark_solution_edges);;
  when (highlight_nodes self || highlight_edges self)
    (call (plt_legend legend_elements "best"));;
  when (negb (String.eqb (save_path self) ""))
    (call (plt_savefig (save_path self)));;
  when (show_plot self) (call plt_show);;
  mret (Data data).

End Visualizer.

(** ** A concrete instance

    The square [A - B - C - D - A] with string identifiers, a layout that puts
    every node at the origin, and the solutions that are run on it. *)

Module Square.

Definition graph : @NxGraph string :=
  mkNxGraph ["A"; "B"; "C"; "D"]
            [("A", "B"); ("B", "C"); ("C", "D"); ("D", "A")].

(** The incoming graph is taken to be its own networkx view. *)
Definition as_nx (gr : @NxGraph string) : @NxGraph string := gr.

Definition layout (gr : @NxGraph string) : list (string * (Z * Z)) :=
  (λ n, (n, (0, 0))) <$> nodes gr.

Definition fresh (solution_type : string) : @GraphVisualizer string :=
  init false false 300 "o" 1%float "solid" 12 solution_type "" true.

(** the object after [preprocess(graph)] *)
Definition loaded (solution_type : string) : @GraphVisualizer string :=
  (preprocess as_nx (fresh solution_type) graph).2.

(** the same with both highlight flags set *)
Definition highlighted (solution_type : string) : @GraphVisualizer string :=
  (preprocess as_nx
     (init true true 300 "o" 1%float "solid" 12 solution_type "" true)
     graph).2.

Definition cycle : @Other string := mkOther ["A"; "B"; "C"; "D"].
Definition pair : @Other string := mkOther ["A"; "B"].
Definition diagonal : @Other string := mkOther ["A"; "C"].

(** A library that refuses the marker [not_a_marker], the line style [wavy]
    and the file name [out.xyz], as matplotlib does, and takes everything
    else. *)
Definition library : @PlotLibrary string (Z * Z) :=
  mkPlotLibrary
    (λ args,
       if String.eqb (marker args) "not_a_marker"
       then Some "ValueError: Unrecognized marker style 'not_a_marker'"
       else if String.eqb (ls args) "wavy"
       then Some "ValueError: 'wavy' is not a valid value for ls"
       else None)
    (λ _ c,
       match c with
       | plt_savefig fname =>
           if String.eqb fname "out.xyz"
           then Some "ValueError: Format 'xyz' is not supported"
           else None
       | _ => None
       end).

(** a loaded object in path mode with the given shape, style and file, and
    [highlight_nodes] set *)
Definition styled (node_shape edge_style save_path : string)
    : @GraphVisualizer string :=
  (preprocess as_nx
     (init true false 300 node_shape 1%float edge_style 12 "path" save_path
        true)
     graph).2.

End Square.

(** ** Vocabulary of the statements *)

(** The closing edge of a path: from the last element back to the first, for
    a solution of more than two elements. *)
Definition closing_edge {Node} (sol : list Node) : list (Node * Node) :=
  if 2 <? len sol then
    match last sol, head sol with
    | Some z, Some a => [(z, a)]
    | _, _ => []
    end
  else [].

(** The plotting calls of one run, from an empty figure. *)
Definition trace {Node Coord} (run : Py (list (@PlotCall Node Coord)) (Result (@Other Node)))
    : list (@PlotCall Node Coord) :=
  (run []).2.

(** The run of lines 56-109, as data. *)
Section RunVocabulary.
Context {Node Coord : Type}.
Implicit Types (self : @GraphVisualizer Node) (gr : @NxGraph Node).
Implicit Types (l : @Locals Node Coord) (lib : @PlotLibrary Node Coord).
Implicit Types (s cs : list (@PlotCall Node Coord)).

(** The arguments of the two [Line2D] objects of lines 64-85. *)
Definition legend_included self : Line2D :=
  mkLine2D [0] [0] (node_shape self) (edge_style self)
    (if highlight_edges self then "red" else "black") "Included"
    (if highlight_nodes self then "red" else "black") 0 10.

Definition legend_excluded self : Line2D :=
  mkLine2D [0] [0] (node_shape self) (edge_style self)
    "black" "Excluded" "black" 0 10.

(** The calls of lines 86-105, in order: the two node calls, the two label
    calls, the two edge calls and, with a highlight flag, the legend. *)
Definition drawing_calls self gr l : list (@PlotCall Node Coord) :=
  [ draw_networkx_nodes gr (pos l) (included_nodes l) (node_size self)
      (if highlight_nodes self then "red" else "black");
    draw_networkx_nodes gr (pos l) (excluded_nodes l) (node_size self) "black";
    draw_networkx_labels gr (pos l) (included_pos l) (font_size self)
      (Some "bold") "white";
    draw_networkx_labels gr (pos l) (excluded_pos l) (font_size self)
      None "white";
    draw_networkx_edges gr (pos l) (excluded_edges l)
      (PrimFloat.mul (edge_width self) 0.8%float) "black";
    draw_networkx_edges gr (pos l) (included_edges l) (edge_width self)
      (if highlight_edges self then "red" else "black") ]
  ++ (if highlight_nodes self || highlight_edges self
      then [plt_legend [legend_included self; legend_excluded self] "best"]
      else []).

(** The calls of lines 86-109: the drawing calls, then [plt.savefig] for a
    non-empty [save_path], then [plt.show] with [show_plot]. *)
Definition calls_of_run self gr l : list (@PlotCall Node Coord) :=
  drawing_calls self gr l
  ++ (if String.eqb (save_path self) "" then []
      else [plt_savefig (save_path self)])
  ++ (if show_plot self then [plt_show] else []).

(** The calls [cs] one after the other, then [k]. *)
Fixpoint call_all {A} lib cs (k : Py (list (@PlotCall Node Coord)) A)
    : Py (list (@PlotCall Node Coord)) A :=
  match cs with
  | [] => k
  | c :: cs' => call lib c ;; call_all lib cs' k
  end.

(** The first of the calls [cs], made on the figure [s], that the library
    refuses: the calls that returned before it, and the exception. *)
Fixpoint first_error lib s cs
    : option (list (@PlotCall Node Coord) * string) :=
  match cs with
  | [] => None
  | c :: cs' =>
      match call_error lib s c with
      | Some what => Some ([], what)
      | None =>
          match first_error lib (s ++ [c]) cs' with
          | Some (returned, what) => Some (c :: returned, what)
          | None => None
          end
      end
  end.

(** The library refuses nothing of the run: neither [Line2D] object, and none
    of the calls. *)
Definition run_accepted lib self gr l s : Prop :=
  Line2D_error lib (legend_included self) = None ∧
  Line2D_error lib (legend_excluded self) = None ∧
  first_error lib s (calls_of_run self gr l) = None.

End RunVocabulary.

(** What a trace shows of each kind of call, in call order. *)
Section Observations.
Context {Node Coord : Type}.
Implicit Types t : list (@PlotCall Node Coord).

(** node list, marker size and fill colour of each [draw_networkx_nodes] *)
Definition node_draws t : list (list Node * Z * string) :=
  omap (λ c, match c with
             | draw_networkx_nodes _ _ nodelist size colour =>
                 Some (nodelist, size, colour)
             | _ => None
             end) t.

(** edge list, line width and colour of each [draw_networkx_edges] *)
Definition edge_draws t : list (list (Node * Node) * float * string) :=
  omap (λ c, match c with
             | draw_networkx_edges _ _ edgelist width colour =>
                 Some (edgelist, width, colour)
             | _ => None
             end) t.

(** labels, font size, weight and colour of each [draw_networkx_labels] *)
Definition label_draws t
    : list (list (Node * Node) * Z * option string * string) :=
  omap (λ c, match c with
             | draw_networkx_labels _ _ labels size weight colour =>
                 Some (labels, size, weight, colour)
             | _ => None
             end) t.

(** the handles of each [plt.legend] *)
Definition legend_draws t : list (list Line2D) :=
  omap (λ c, match c with
             | plt_legend handles _ => Some handles
             | _ => None
             end) t.

End Observations.

(** All entries of a list of styles are the same: nothing tells them apart. *)
Definition alike {A} (styles : list A) : Prop :=
  ∀ x y, x ∈ styles → y ∈ styles → x = y.

(** Width and colour of the edge calls; size and colour of the node calls. *)
Definition edge_styles {Node Coord} (t : list (@PlotCall Node Coord))
    : list (float * string) :=
  (λ x, (x.1.2, x.2)) <$> edge_draws t.

Definition node_styles {Node Coord} (t : list (@PlotCall Node Coord))
    : list (Z * string) :=
  (λ x, (x.1.2, x.2)) <$> node_draws t.

(** The two node calls differ in fill colour. *)
Definition distinct_fill_colours {Node Coord} (t : list (@PlotCall Node Coord))
    : Prop :=
  ∀ x y, node_draws t = [x; y] → x.2 ≠ y.2.

(** ** Running the monad *)

Section MonadFacts.
Context {St : Type}.

Lemma bind_ret {A B} (m : Py St A) (k : A → Py St B) a s s' :
  m s = (inr a, s') → (m ≫= k) s = k a s'.
Proof. intros Hm. unfold mbind, Py_bind, bind. by rewrite Hm. Qed.

Lemma bind_raise {A B} (m : Py St A) (k : A → Py St B) e s s' :
  m s = (inl e, s') → (m ≫= k) s = (inl e, s').
Proof. intros Hm. unfold mbind, Py_bind, bind. by rewrite Hm. Qed.

(** Indexing inside the list succeeds and leaves the state alone. *)
Lemma getitem_lookup {A} (l : list A) (n : nat) x (s : St) :
  l !! n = Some x → getitem l (Z.of_nat n) s = (inr x, s).
Proof.
  intros Hx. pose proof (lookup_lt_Some _ _ _ Hx) as Hlt.
  unfold getitem, len.
  destruct (Z.ltb_spec (Z.of_nat n) 0) as [?|_]; [lia|].
  destruct (Z.leb_spec 0 (Z.of_nat n)) as [_|?]; [|lia].
  destruct (Z.ltb_spec (Z.of_nat n) (Z.of_nat (length l))) as [_|?]; [|lia].
  simpl. by rewrite Nat2Z.id, Hx.
Qed.

(** [l[-1]] is the last element. *)
Lemma getitem_last {A} (l : list A) x (s : St) :
  last l = Some x → getitem l (-1) s = (inr x, s).
Proof.
  intros Hx. rewrite last_lookup in Hx.
  pose proof (lookup_lt_Some _ _ _ Hx) as Hlt.
  unfold getitem, len. change (-1 <? 0) with true. cbv iota.
  destruct (Z.leb_spec 0 (-1 + Z.of_nat (length l))) as [_|?]; [|lia].
  destruct (Z.ltb_spec (-1 + Z.of_nat (length l)) (Z.of_nat (length l)))
    as [_|?]; [|lia].
  simpl. replace (Z.to_nat (-1 + Z.of_nat (length l))) with (pred (length l))
    by lia.
  by rewrite Hx.
Qed.

(** Outside the list, in either direction, indexing raises. *)
Lemma getitem_out_of_range {A} (l : list A) (i : Z) (s : St) :
  i < - len l ∨ len l ≤ i → getitem l i s = (inl IndexError, s).
Proof.
  intros Hi. unfold getitem, len in *.
  destruct (Z.ltb_spec i 0).
  - destruct (Z.leb_spec 0 (i + Z.of_nat (length l))); [lia|done].
  - destruct (Z.leb_spec 0 i); [|lia].
    destruct (Z.ltb_spec i (Z.of_nat (length l))); [lia|done].
Qed.

End MonadFacts.

(** ** The edges implied by a path *)

Section PathEdges.
Context {Node : Type} {St : Type}.
Implicit Types sol : list Node.

Lemma link_lookup sol (n : nat) a b (s : St) :
  sol !! n = Some a → sol !! (n + 1)%nat = Some b →
  link sol (Z.of_nat n) s = (inr (a, b), s).
Proof.
  intros Ha Hb. unfold link.
  rewrite (bind_ret _ _ a s s) by by apply getitem_lookup.
  replace (Z.of_nat n + 1) with (Z.of_nat (n + 1)) by lia.
  by rewrite (bind_ret _ _ b s s) by by apply getitem_lookup.
Qed.

(** The comprehension over [k] indices from [off] on, all of them with a
    successor inside the list, pairs the two windows of the list. *)
Lemma for_each_link sol (k off : nat) (s : St) :
  (k = 0 ∨ off + k < length sol)%nat →
  for_each (link sol) (Z.of_nat <$> seq off k) s
  = (inr (zip (take k (drop off sol)) (take k (drop (off + 1) sol))), s).
Proof.
  revert off. induction k as [|k IH]; intros off Hk; [done|].
  destruct Hk as [?|Hk]; [done|].
  destruct (lookup_lt_is_Some_2 sol off) as [a Ha]; [lia|].
  destruct (lookup_lt_is_Some_2 sol (off + 1)) as [b Hb]; [lia|].
  cbn [seq fmap list_fmap for_each].
  unfold bind at 1. rewrite (link_lookup _ _ a b) by done.
  unfold bind. change (list_fmap nat Z Z.of_nat) with (fmap Z.of_nat).
  rewrite (IH (S off)) by lia.
  rewrite (drop_S _ _ _ Ha), (drop_S _ _ _ Hb).
  replace (S off + 1)%nat with (S (off + 1)) by lia.
  replace (S off) with (off + 1)%nat by lia.
  done.
Qed.

(** Line 46 as a whole: every element paired with its successor. *)
Lemma for_each_link_range sol (s : St) :
  for_each (link sol) (range (len sol - 1)) s = (inr (zip sol (tail sol)), s).
Proof.
  unfold range, len.
  replace (Z.to_nat (Z.of_nat (length sol) - 1)) with (length sol - 1)%nat
    by lia.
  rewrite for_each_link by lia.
  rewrite drop_0. change (drop (0 + 1) sol) with (drop 1 sol).
  replace (drop 1 sol) with (tail sol) by by destruct sol.
  do 2 f_equal. apply zip_with_take_both'; destruct sol; cbn [tail length]; lia.
Qed.

End PathEdges.

(** ** Splitting a list by a test and by membership in the part kept *)

Section Split.
Context {A : Type}.
Implicit Types l : list A.

(** Two tests that agree on the elements of [l] select the same sublist. *)
Lemma filter_ext_in (P Q : A → Prop)
    `{!∀ x, Decision (P x), !∀ x, Decision (Q x)} l :
  (∀ x, x ∈ l → P x ↔ Q x) → filter P l = filter Q l.
Proof.
  induction l as [|a l IH]; intros HPQ; [done|].
  rewrite !filter_cons.
  assert (P a ↔ Q a) as Ha by (apply HPQ; left).
  assert (filter P l = filter Q l) as ->
    by (apply IH; intros x Hx; apply HPQ; by right).
  destruct (decide (P a)), (decide (Q a)); tauto || done.
Qed.

(** [[x for x in l if x not in kept]], with [kept] the elements of [l] that
    pass [P], keeps the elements of [l] that fail [P]. *)
Lemma filter_not_in_kept `{EqDecision A} (P : A → Prop)
    `{!∀ x, Decision (P x)} l :
  filter (λ x, x ∉ filter P l) l = filter (λ x, ¬ P x) l.
Proof.
  apply filter_ext_in. intros x Hx. rewrite list_elem_of_filter. tauto.
Qed.

(** The kept part and the rest: every element in exactly one, nothing lost,
    nothing repeated. *)
Lemma kept_rest_split `{EqDecision A} (P : A → Prop)
    `{!∀ x, Decision (P x)} l :
  let kept := filter P l in
  let rest := filter (λ x, x ∉ kept) l in
  (∀ x, x ∈ l ↔ x ∈ kept ∨ x ∈ rest) ∧
  (∀ x, ¬ (x ∈ kept ∧ x ∈ rest)) ∧
  kept ++ rest ≡ₚ l.
Proof.
  intros kept rest. subst rest kept. rewrite filter_not_in_kept.
  split_and!.
  - intros x. rewrite !list_elem_of_filter. destruct (decide (P x)); tauto.
  - intros x. rewrite !list_elem_of_filter. tauto.
  - apply filter_app_complement.
Qed.

End Split.

(** ** What [classify] and [postprocess] compute *)

Section Runs.
Context {Node : Type} `{EqDecision Node}.
Context {Coord : Type} (spring_layout : @NxGraph Node → list (Node * Coord)).
Context (lib : @PlotLibrary Node Coord).
Implicit Types (self : @GraphVisualizer Node) (gr : @NxGraph Node).
Implicit Types (d : @Other Node) (sol : list Node).
Implicit Types (s : list (@PlotCall Node Coord)).

(** Lines 46-48 never raise: the implied edges are the adjacent pairs followed
    by the closing edge. *)
Lemma path_edge_list_run sol s :
  path_edge_list sol s = (inr (zip sol (tail sol) ++ closing_edge sol), s).
Proof.
  unfold path_edge_list, closing_edge.
  rewrite (bind_ret _ _ _ s s (for_each_link_range sol s)).
  destruct (Z.ltb_spec 2 (len sol)) as [Hlen|Hlen].
  - unfold len in Hlen.
    destruct (lookup_lt_is_Some_2 sol 0) as [a Ha]; [lia|].
    destruct (lookup_lt_is_Some_2 sol (pred (length sol))) as [z Hz]; [lia|].
    rewrite <- last_lookup in Hz. rewrite Hz, head_lookup, Ha.
    rewrite (bind_ret _ _ z s s) by by apply getitem_last.
    by rewrite (bind_ret _ _ a s s) by by apply (getitem_lookup sol 0).
  - by rewrite app_nil_r.
Qed.

Lemma classify_no_graph self d s :
  g self = None → classify spring_layout self d s = (inl (AttributeError "g"), s).
Proof. intros Hg. unfold classify, self_g. by rewrite Hg. Qed.

Lemma classify_path self gr d s :
  g self = Some gr → solution_type self = "path" →
  let sol := data d in
  let edge_list := zip sol (tail sol) ++ closing_edge sol in
  let included := filter (λ e, e ∈ edge_list ∨ (e.2, e.1) ∈ edge_list) (edges gr) in
  classify spring_layout self d s
  = (inr (mkLocals
            (filter (λ node, node ∈ sol) (nodes gr))
            (filter (λ node, node ∉ sol) (nodes gr))
            (spring_layout gr)
            ((λ item, (item.1, item.1)) <$> filter (λ item, item.1 ∈ sol) (spring_layout gr))
            ((λ item, (item.1, item.1)) <$> filter (λ item, item.1 ∉ sol) (spring_layout gr))
            included
            (filter (λ e, e ∉ included) (edges gr))), s).
Proof.
  intros Hg Hty. unfold classify, self_g. rewrite Hg, Hty.
  change (("path" =? "path")%string) with true. cbv iota.
  unfold mbind at 1, Py_bind at 1, bind at 1. cbn [ret].
  by rewrite (bind_ret _ _ _ s s (path_edge_list_run _ s)).
Qed.

Lemma classify_set self gr d s :
  g self = Some gr → solution_type self = "set" →
  let sol := data d in
  let included := filter (λ e, e.1 ∈ sol ∧ e.2 ∈ sol) (edges gr) in
  classify spring_layout self d s
  = (inr (mkLocals
            (filter (λ node, node ∈ sol) (nodes gr))
            (filter (λ node, node ∉ sol) (nodes gr))
            (spring_layout gr)
            ((λ item, (item.1, item.1)) <$> filter (λ item, item.1 ∈ sol) (spring_layout gr))
            ((λ item, (item.1, item.1)) <$> filter (λ item, item.1 ∉ sol) (spring_layout gr))
            included
            (filter (λ e, e ∉ included) (edges gr))), s).
Proof.
  intros Hg Hty. unfold classify, self_g. by rewrite Hg, Hty.
Qed.

Lemma classify_invalid self gr d s :
  g self = Some gr → solution_type self ≠ "path" → solution_type self ≠ "set" →
  classify spring_layout self d s
  = (inl (ValueError ("solution_type must be 'path' or 'set', and not "
                      +:+ solution_type self)), s).
Proof.
  intros Hg Hp Hs. unfold classify, self_g. rewrite Hg.
  apply String.eqb_neq in Hp, Hs.
  unfold mbind, Py_bind, bind. cbn [ret]. by rewrite Hp, Hs.
Qed.

(** A sequence of calls runs up to the first one the library refuses. *)
Lemma call_all_run {A} cs (k : Py (list (@PlotCall Node Coord)) A) s :
  call_all lib cs k s
  = match first_error lib s cs with
    | Some (returned, what) => (inl (LibraryError what), s ++ returned)
    | None => k (s ++ cs)
    end.
Proof.
  revert s. induction cs as [|c cs IH]; intros s.
  - cbn. by rewrite app_nil_r.
  - cbn [call_all first_error].
    unfold mbind, Py_bind, bind, call at 1, emit, raise.
    destruct (call_error lib s c) as [what|].
    + by rewrite app_nil_r.
    + rewrite IH. destruct (first_error lib (s ++ [c]) cs) as [[returned what]|];
        by rewrite <- app_assoc.
Qed.

(** The calls that returned are a proper start of the sequence, and the next
    one is the one refused. *)
Lemma first_error_Some cs s returned what :
  first_error lib s cs = Some (returned, what) →
  ∃ c rest, cs = returned ++ c :: rest ∧
            call_error lib (s ++ returned) c = Some what ∧
            first_error lib s returned = None.
Proof.
  revert s returned. induction cs as [|c cs IH]; intros s returned; [done|].
  cbn [first_error]. destruct (call_error lib s c) as [w|] eqn:Hc.
  - intros [= <- <-]. exists c, cs. by rewrite app_nil_r.
  - destruct (first_error lib (s ++ [c]) cs) as [[returned' w]|] eqn:Hrec;
      [|done].
    intros [= <- <-]. destruct (IH _ _ Hrec) as (c' & rest & -> & Hc' & Hnone).
    exists c', rest. split_and!; [done| |].
    + by rewrite <- app_assoc in Hc'.
    + cbn [first_error]. by rewrite Hc, Hnone.
Qed.

(** Once the lists are there, lines 56-110 run as follows: the two [Line2D]
    objects, then the calls in order up to the first failure; the method
    returns its input when nothing fails. *)
Lemma postprocess_run self gr d l s :
  g self = Some gr → classify spring_layout self d s = (inr l, s) →
  postprocess spring_layout lib self d s
  = match Line2D_error lib (legend_included self) with
    | Some what => (inl (LibraryError what), s)
    | None =>
        match Line2D_error lib (legend_excluded self) with
        | Some what => (inl (LibraryError what), s)
        | None =>
            match first_error lib s (calls_of_run self gr l) with
            | Some (returned, what) =>
                (inl (LibraryError what), s ++ returned)
            | None => (inr (Data d), s ++ calls_of_run self gr l)
            end
        end
    end.
Proof.
  intros Hg Hl. unfold postprocess.
  rewrite (bind_ret _ _ l s s Hl).
  unfold new_Line2D. fold (legend_included self) (legend_excluded self).
  destruct (Line2D_error lib (legend_included self)) as [what|]; [done|].
  unfold mbind at 1, Py_bind at 1, bind at 1. cbn [ret].
  destruct (Line2D_error lib (legend_excluded self)) as [what|]; [done|].
  unfold mbind at 1, Py_bind at 1, bind at 1. cbn [ret].
  unfold self_g. rewrite Hg.
  unfold mbind at 1, Py_bind at 1, bind at 1. cbn [ret].
  transitivity (call_all lib (calls_of_run self gr l) (mret (Data d)) s);
    [|by rewrite call_all_run].
  unfold calls_of_run, drawing_calls.
  by destruct (highlight_nodes self), (highlight_edges self),
    (save_path self =? "")%string, (show_plot self).
Qed.

(** With nothing refused the method returns its input and the figure has
    received all the calls. *)
Lemma postprocess_accepted self gr d l s :
  g self = Some gr → classify spring_layout self d s = (inr l, s) →
  run_accepted lib self gr l s →
  postprocess spring_layout lib self d s
  = (inr (Data d), s ++ calls_of_run self gr l).
Proof.
  intros Hg Hl (H1 & H2 & H3).
  by rewrite (postprocess_run self gr d l s Hg Hl), H1, H2, H3.
Qed.

(** A failure of lines 40-55 is the failure of [postprocess], with the figure
    as it was. *)
Lemma postprocess_raises self d e s s' :
  classify spring_layout self d s = (inl e, s') →
  postprocess spring_layout lib self d s = (inl e, s').
Proof. intros Hl. unfold postprocess. by rewrite (bind_raise _ _ e s s' Hl). Qed.

(** [classify] only reads: it succeeds on a loaded object in either mode. *)
Lemma classify_valid self gr d s :
  g self = Some gr →
  solution_type self = "path" ∨ solution_type self = "set" →
  ∃ l, classify spring_layout self d s = (inr l, s).
Proof.
  intros Hg [Hty|Hty]; eexists.
  - by apply classify_path.
  - by apply classify_set.
Qed.

(** A run that returns is a run on a loaded object, in one of the two modes,
    with nothing refused; it returns its input, and the figure has received
    all the calls. *)
Lemma postprocess_returned self d s r t :
  postprocess spring_layout lib self d s = (inr r, t) →
  ∃ gr l,
    g self = Some gr ∧
    (solution_type self = "path" ∨ solution_type self = "set") ∧
    classify spring_layout self d s = (inr l, s) ∧
    run_accepted lib self gr l s ∧
    r = Data d ∧ t = s ++ calls_of_run self gr l.
Proof.
  intros Hrun. destruct (g self) as [gr|] eqn:Hg.
  - assert (solution_type self = "path" ∨ solution_type self = "set") as Hty.
    { destruct (decide (solution_type self = "path")) as [Hp|Hp]; [by left|].
      destruct (decide (solution_type self = "set")) as [Hs|Hs]; [by right|].
      by rewrite (postprocess_raises _ _ _ _ _
                    (classify_invalid self gr d s Hg Hp Hs)) in Hrun. }
    destruct (classify_valid self gr d s Hg Hty) as [l Hl].
    exists gr, l. rewrite (postprocess_run self gr d l s Hg Hl) in Hrun.
    unfold run_accepted.
    destruct (Line2D_error lib (legend_included self)); [done|].
    destruct (Line2D_error lib (legend_excluded self)); [done|].
    destruct (first_error lib s (calls_of_run self gr l)) as [[? ?]|]; [done|].
    by injection Hrun as <- <-.
  - by rewrite (postprocess_raises _ _ _ _ _ (classify_no_graph self d s Hg))
      in Hrun.
Qed.

End Runs.

(** ** The partition into included and excluded *)

Section Partition.
Context {Node : Type} `{EqDecision Node}.
Context {Coord : Type} (spring_layout : @NxGraph Node → list (Node * Coord)).
Implicit Types (self : @GraphVisualizer Node) (gr : @NxGraph Node).
Implicit Types (d : @Other Node) (sol : list Node).
Implicit Types (s : list (@PlotCall Node Coord)).

(** C1. On a stored graph, in path mode and in set mode alike, lines 40-55
    succeed, and the lists they bind split the graph: every edge of the graph
    is in exactly one of [included_edges] and [excluded_edges], every node in
    exactly one of [included_nodes] and [excluded_nodes]; the two lists
    together are a rearrangement of the graph's list, so nothing is lost or
    repeated either. *)
Theorem included_excluded_split self gr d s :
  g self = Some gr →
  solution_type self = "path" ∨ solution_type self = "set" →
  ∃ l, classify spring_layout self d s = (inr l, s) ∧
    (∀ e, e ∈ edges gr ↔ e ∈ included_edges l ∨ e ∈ excluded_edges l) ∧
    (∀ e, ¬ (e ∈ included_edges l ∧ e ∈ excluded_edges l)) ∧
    included_edges l ++ excluded_edges l ≡ₚ edges gr ∧
    (∀ n, n ∈ nodes gr ↔ n ∈ included_nodes l ∨ n ∈ excluded_nodes l) ∧
    (∀ n, ¬ (n ∈ included_nodes l ∧ n ∈ excluded_nodes l)) ∧
    included_nodes l ++ excluded_nodes l ≡ₚ nodes gr.
Proof.
  intros Hg Hty.
  assert (∀ ns : list Node,
    let inc := filter (λ node, node ∈ data d) ns in
    let exc := filter (λ node, node ∉ data d) ns in
    (∀ n, n ∈ ns ↔ n ∈ inc ∨ n ∈ exc) ∧ (∀ n, ¬ (n ∈ inc ∧ n ∈ exc)) ∧
    inc ++ exc ≡ₚ ns) as Hnodes.
  { intros ns inc exc. subst inc exc. split_and!.
    - intros n. rewrite !list_elem_of_filter.
      destruct (decide (n ∈ data d)); tauto.
    - intros n. rewrite !list_elem_of_filter. tauto.
    - apply (filter_app_complement (λ node, node ∈ data d)). }
  destruct (Hnodes (nodes gr)) as (Hn1 & Hn2 & Hn3).
  destruct Hty as [Hty|Hty].
  - eexists. split; [by apply classify_path|]. cbn [included_edges
      excluded_edges included_nodes excluded_nodes].
    destruct (kept_rest_split
      (λ e, e ∈ zip (data d) (tail (data d)) ++ closing_edge (data d)
            ∨ (e.2, e.1) ∈ zip (data d) (tail (data d)) ++ closing_edge (data d))
      (edges gr)) as (He1 & He2 & He3).
    by split_and!.
  - eexists. split; [by apply classify_set|]. cbn [included_edges
      excluded_edges included_nodes excluded_nodes].
    destruct (kept_rest_split (λ e, e.1 ∈ data d ∧ e.2 ∈ data d) (edges gr))
      as (He1 & He2 & He3).
    by split_and!.
Qed.

(** C3. In set mode an edge of the graph is included exactly when both its
    endpoints occur in the solution, and excluded exactly when one of them
    does not. *)
Theorem set_mode_included_iff self gr d s :
  g self = Some gr → solution_type self = "set" →
  ∃ l, classify spring_layout self d s = (inr l, s) ∧
    ∀ e, e ∈ edges gr →
      (e ∈ included_edges l ↔ e.1 ∈ data d ∧ e.2 ∈ data d) ∧
      (e ∈ excluded_edges l ↔ ¬ (e.1 ∈ data d ∧ e.2 ∈ data d)).
Proof.
  intros Hg Hty. eexists. split; [by apply classify_set|].
  cbn [included_edges excluded_edges]. intros e He.
  rewrite filter_not_in_kept, !list_elem_of_filter. tauto.
Qed.

(** C10. In set mode the four lists depend on the solution only through the
    elements that occur in it: two solutions with the same elements, in any
    order and with any repetitions, give the same lists. *)
Theorem set_mode_same_elements self gr d1 d2 s :
  g self = Some gr → solution_type self = "set" →
  (∀ x, x ∈ data d1 ↔ x ∈ data d2) →
  ∃ l1 l2,
    classify spring_layout self d1 s = (inr l1, s) ∧
    classify spring_layout self d2 s = (inr l2, s) ∧
    included_nodes l1 = included_nodes l2 ∧
    excluded_nodes l1 = excluded_nodes l2 ∧
    included_edges l1 = included_edges l2 ∧
    excluded_edges l1 = excluded_edges l2.
Proof.
  intros Hg Hty Hsame. do 2 eexists.
  split; [by apply classify_set|]. split; [by apply classify_set|].
  cbn [included_edges excluded_edges included_nodes excluded_nodes].
  assert (filter (λ e : Node * Node, e.1 ∈ data d1 ∧ e.2 ∈ data d1) (edges gr)
          = filter (λ e, e.1 ∈ data d2 ∧ e.2 ∈ data d2) (edges gr)) as Hinc.
  { apply list_filter_iff. intros e. by rewrite !Hsame. }
  split_and!.
  - apply list_filter_iff. intros n. apply Hsame.
  - apply list_filter_iff. intros n. by rewrite Hsame.
  - done.
  - by rewrite Hinc.
Qed.

End Partition.

(** ** Path mode *)

Section PathMode.
Context {Node : Type} `{EqDecision Node}.
Context {Coord : Type} (spring_layout : @NxGraph Node → list (Node * Coord)).
Implicit Types (self : @GraphVisualizer Node) (gr : @NxGraph Node).
Implicit Types (d : @Other Node) (sol : list Node).
Implicit Types (s : list (@PlotCall Node Coord)).

(** The adjacent pairs of a list, position by position. *)
Lemma adjacent_lookup sol (i : nat) a b :
  zip sol (tail sol) !! i = Some (a, b) ↔
  sol !! i = Some a ∧ sol !! S i = Some b.
Proof.
  rewrite lookup_zip_with_Some. setoid_rewrite lookup_tail. split.
  - intros (x & y & [= -> ->] & Hx & Hy). done.
  - intros [Ha Hb]. by exists a, b.
Qed.

Lemma adjacent_length sol : length (zip sol (tail sol)) = (length sol - 1)%nat.
Proof. rewrite length_zip_with. destruct sol; cbn [tail length]; lia. Qed.

(** C4. In path mode lines 46-48 succeed on every solution.  The list they
    build starts with the pair of each element and its successor, in order,
    and nothing else but, for a solution of more than two elements, one last
    pair from the last element to the first.  So up to length two there are
    [len - 1] pairs (one, or none) and no closing pair, and above length two
    there are [len] pairs.  An edge is included exactly when it is an edge of
    the graph and it, or its reverse, is in that list. *)
Theorem path_mode_edges self gr d s :
  g self = Some gr → solution_type self = "path" →
  ∃ adjacent closing l,
    path_edge_list (data d) s = (inr (adjacent ++ closing), s) ∧
    (∀ (i : nat) a b, adjacent !! i = Some (a, b) ↔
                      data d !! i = Some a ∧ data d !! S i = Some b) ∧
    ((length (data d) ≤ 2)%nat →
       closing = [] ∧
       length (adjacent ++ closing) = (length (data d) - 1)%nat) ∧
    ((2 < length (data d))%nat →
       (∃ a z, head (data d) = Some a ∧ last (data d) = Some z ∧
               closing = [(z, a)]) ∧
       length (adjacent ++ closing) = length (data d)) ∧
    classify spring_layout self d s = (inr l, s) ∧
    (∀ e, e ∈ included_edges l ↔
          e ∈ edges gr ∧
          (e ∈ adjacent ++ closing ∨ (e.2, e.1) ∈ adjacent ++ closing)) ∧
    (∀ e, e ∈ excluded_edges l ↔
          e ∈ edges gr ∧
          ¬ (e ∈ adjacent ++ closing ∨ (e.2, e.1) ∈ adjacent ++ closing)).
Proof.
  intros Hg Hty.
  exists (zip (data d) (tail (data d))), (closing_edge (data d)).
  eexists. split; [apply path_edge_list_run|].
  split; [apply adjacent_lookup|].
  split_and!.
  - intros Hlen. unfold closing_edge, len.
    destruct (Z.ltb_spec 2 (Z.of_nat (length (data d)))); [lia|].
    by rewrite app_nil_r, adjacent_length.
  - intros Hlen. unfold closing_edge, len.
    destruct (Z.ltb_spec 2 (Z.of_nat (length (data d)))); [|lia].
    destruct (lookup_lt_is_Some_2 (data d) 0) as [a Ha]; [lia|].
    destruct (lookup_lt_is_Some_2 (data d) (pred (length (data d))))
      as [z Hz]; [lia|].
    rewrite <- last_lookup in Hz. rewrite <- head_lookup in Ha.
    rewrite Hz, Ha. split; [by exists a, z|].
    rewrite length_app, adjacent_length. cbn [length]. lia.
  - by apply classify_path.
  - intros e. cbn [included_edges]. rewrite list_elem_of_filter. tauto.
  - intros e. cbn [excluded_edges].
    rewrite filter_not_in_kept, list_elem_of_filter. tauto.
Qed.

End PathMode.

(** ** Rendering *)

Section Rendering.
Context {Node : Type} `{EqDecision Node}.
Context {Graph : Type} (as_nx_graph : Graph → @NxGraph Node).
Context {Coord : Type} (spring_layout : @NxGraph Node → list (Node * Coord)).
Context (lib : @PlotLibrary Node Coord).
Implicit Types (self : @GraphVisualizer Node) (gr : @NxGraph Node).
Implicit Types (d : @Other Node) (sol : list Node).
Implicit Types (l : @Locals Node Coord).
Implicit Types (s t : list (@PlotCall Node Coord)).

(** What the calls of a run show, kind by kind. *)
Lemma calls_draws self gr l :
  let t := calls_of_run self gr l in
  node_draws t
  = [ (included_nodes l, node_size self,
       if highlight_nodes self then "red" else "black");
      (excluded_nodes l, node_size self, "black") ] ∧
  edge_draws t
  = [ (excluded_edges l, PrimFloat.mul (edge_width self) 0.8%float, "black");
      (included_edges l, edge_width self,
       if highlight_edges self then "red" else "black") ] ∧
  label_draws t
  = [ (included_pos l, font_size self, Some "bold", "white");
      (excluded_pos l, font_size self, None, "white") ] ∧
  legend_draws t
  = if highlight_nodes self || highlight_edges self
    then [ [legend_included self; legend_excluded self] ]
    else [].
Proof.
  intros t. subst t. unfold calls_of_run, drawing_calls.
  destruct (highlight_nodes self), (highlight_edges self),
    (save_path self =? "")%string, (show_plot self); done.
Qed.

(** A run from an empty figure that returns leaves the calls of the run. *)
Lemma returned_calls self d r t :
  postprocess spring_layout lib self d [] = (inr r, t) →
  ∃ gr l, g self = Some gr ∧
          classify spring_layout self d [] = (inr l, []) ∧
          t = calls_of_run self gr l.
Proof.
  intros Hrun.
  destruct (postprocess_returned _ _ _ _ _ _ _ Hrun)
    as (gr & l & Hg & _ & Hl & _ & _ & ->).
  by exists gr, l.
Qed.

(** The calls that returned before a failure include no legend if the whole
    sequence has none. *)
Lemma no_legend_before self gr l s returned what :
  first_error lib s (calls_of_run self gr l) = Some (returned, what) →
  legend_draws (calls_of_run self gr l) = [] → legend_draws returned = [].
Proof.
  intros Herr Hnone.
  destruct (first_error_Some _ _ _ _ _ Herr) as (c & rest & Hcs & _).
  rewrite Hcs in Hnone. unfold legend_draws in *.
  rewrite omap_app in Hnone. by apply app_eq_nil in Hnone as [? _].
Qed.

(** C2. On a loaded object whose [solution_type] is neither "path" nor "set",
    [postprocess] raises the [ValueError] of line 55, whose message ends with
    the configured value, and the figure is as it was before the call: nothing
    has been drawn.  Such objects exist, since neither [init] nor [preprocess]
    looks at the field; the check is made here. *)
Theorem invalid_solution_type_raises self gr d s :
  g self = Some gr →
  solution_type self ≠ "path" → solution_type self ≠ "set" →
  postprocess spring_layout lib self d s
  = (inl (ValueError ("solution_type must be 'path' or 'set', and not "
                      +:+ solution_type self)), s) ∧
  trace (postprocess spring_layout lib self d) = [].
Proof.
  intros Hg Hp Hs. split.
  - by apply postprocess_raises, (classify_invalid _ _ gr).
  - unfold trace.
    by rewrite (postprocess_raises _ _ _ _ _ _ _
                  (classify_invalid spring_layout self gr d [] Hg Hp Hs)).
Qed.

(** C5. Both methods hand their argument back.  [preprocess] returns
    [Data(data)] on every object and every graph.  [postprocess] returns
    nothing but [Data(data)]: whenever it returns, that is its result; and on
    a loaded object in path or set mode it does return, for every solution,
    exactly when the plotting libraries refuse none of its calls. *)
Theorem passthrough self gr d s :
  g self = Some gr →
  solution_type self = "path" ∨ solution_type self = "set" →
  (∀ self0 (graph : Graph),
     (preprocess as_nx_graph self0 graph).1 = Data graph) ∧
  (∀ r t, postprocess spring_layout lib self d s = (inr r, t) → r = Data d) ∧
  ∃ l, classify spring_layout self d s = (inr l, s) ∧
    (run_accepted lib self gr l s →
     postprocess spring_layout lib self d s
     = (inr (Data d), s ++ calls_of_run self gr l)) ∧
    (∀ r t, postprocess spring_layout lib self d s = (inr r, t) →
            run_accepted lib self gr l s).
Proof.
  intros Hg Hty. split; [done|]. split.
  - intros r t Hrun.
    by destruct (postprocess_returned _ _ _ _ _ _ _ Hrun)
      as (? & ? & _ & _ & _ & _ & -> & _).
  - destruct (classify_valid spring_layout self gr d s Hg Hty) as [l Hl].
    exists l. split_and!; [done| |].
    + by apply postprocess_accepted.
    + intros r t Hrun.
      destruct (postprocess_returned _ _ _ _ _ _ _ Hrun)
        as (gr' & l' & Hg' & _ & Hl' & Hacc & _).
      rewrite Hg in Hg'. injection Hg' as <-.
      rewrite Hl in Hl'. by injection Hl' as <-.
Qed.

(** C6. A run that returns has drawn one legend, with the two entries
    "Included" and "Excluded", when [highlight_nodes] or [highlight_edges] is
    set, and no legend when neither is.  With neither set no run draws a
    legend, whether it returns or raises. *)
Theorem legend_iff_highlight self d r t :
  postprocess spring_layout lib self d [] = (inr r, t) →
  (highlight_nodes self || highlight_edges self = true →
     ∃ inc exc, legend_draws t = [[inc; exc]] ∧
                label inc = "Included" ∧ label exc = "Excluded") ∧
  (highlight_nodes self || highlight_edges self = false →
     legend_draws t = []) ∧
  (highlight_nodes self || highlight_edges self = false →
     ∀ d', legend_draws (trace (postprocess spring_layout lib self d')) = []).
Proof.
  intros Hrun.
  destruct (returned_calls _ _ _ _ Hrun) as (gr & l & Hg & Hl & ->).
  destruct (calls_draws self gr l) as (_ & _ & _ & Hleg).
  split_and!.
  - intros Hon. rewrite Hleg, Hon. by do 2 eexists.
  - intros Hoff. by rewrite Hleg, Hoff.
  - intros Hoff d'. unfold trace.
    destruct (decide (solution_type self = "path")) as [Hp|Hp];
      [|destruct (decide (solution_type self = "set")) as [Hs|Hs]].
    1,2: (destruct (classify_valid spring_layout self gr d' [] Hg) as [l' Hl'];
           [by auto|]);
      rewrite (postprocess_run _ _ self gr d' l' [] Hg Hl');
      destruct (Line2D_error lib (legend_included self)); [done|];
      destruct (Line2D_error lib (legend_excluded self)); [done|];
      destruct (calls_draws self gr l') as (_ & _ & _ & Hleg');
      rewrite Hoff in Hleg';
      (destruct (first_error lib [] (calls_of_run self gr l'))
         as [[returned what]|] eqn:Herr; [|done]);
      by apply (no_legend_before self gr l' [] returned what).
    by rewrite (postprocess_raises _ _ _ _ _ _ _
                  (classify_invalid spring_layout self gr d' [] Hg Hp Hs)).
Qed.

(** C7, as the code has it.  On a run that returns: with [highlight_nodes] set
    the included nodes are red and the excluded ones black; with
    [highlight_edges] set the included edges are red and the excluded ones
    black.  With a flag unset both parts have the same colour, black, and the
    nodes the same size.  In either case the excluded edges are drawn at
    [edge_width * 0.8] and the included ones at [edge_width], and the included
    labels are bold while the excluded ones carry no weight. *)
Theorem highlight_colours self d r t :
  postprocess spring_layout lib self d [] = (inr r, t) →
  ∃ l c_nodes c_edges,
    classify spring_layout self d [] = (inr l, []) ∧
    node_draws t = [ (included_nodes l, node_size self, c_nodes);
                     (excluded_nodes l, node_size self, "black") ] ∧
    edge_draws t
    = [ (excluded_edges l, PrimFloat.mul (edge_width self) 0.8%float, "black");
        (included_edges l, edge_width self, c_edges) ] ∧
    label_draws t = [ (included_pos l, font_size self, Some "bold", "white");
                      (excluded_pos l, font_size self, None, "white") ] ∧
    (highlight_nodes self = true → c_nodes = "red" ∧ c_nodes ≠ "black") ∧
    (highlight_nodes self = false → c_nodes = "black" ∧ alike (node_styles t)) ∧
    (highlight_edges self = true → c_edges = "red" ∧ c_edges ≠ "black") ∧
    (highlight_edges self = false → c_edges = "black").
Proof.
  intros Hrun.
  destruct (returned_calls _ _ _ _ Hrun) as (gr & l & Hg & Hl & ->).
  destruct (calls_draws self gr l) as (Hn & He & Hlab & _).
  exists l, (if highlight_nodes self then "red" else "black"),
    (if highlight_edges self then "red" else "black").
  split_and!; try done.
  - by intros ->.
  - intros Hoff. rewrite Hoff in *. split; [done|].
    unfold node_styles. rewrite Hn. intros x y Hx Hy.
    apply list_elem_of_In in Hx, Hy. cbn in Hx, Hy. intuition congruence.
  - by intros ->.
  - by intros ->.
Qed.

(** C8, as the code has it.  A run that returns has drawn the included and the
    excluded nodes with one call each.  The excluded nodes are filled in
    black; the included nodes in red when [highlight_nodes] is set and in
    black when it is not.  So the two fill colours differ exactly when
    [highlight_nodes] is set. *)
Theorem node_fill_colours self d r t :
  postprocess spring_layout lib self d [] = (inr r, t) →
  ∃ l c_inc c_exc,
    classify spring_layout self d [] = (inr l, []) ∧
    node_draws t = [ (included_nodes l, node_size self, c_inc);
                     (excluded_nodes l, node_size self, c_exc) ] ∧
    c_exc = "black" ∧
    (highlight_nodes self = true → c_inc = "red") ∧
    (highlight_nodes self = false → c_inc = "black") ∧
    (c_inc ≠ c_exc ↔ highlight_nodes self = true) ∧
    (distinct_fill_colours t ↔ highlight_nodes self = true).
Proof.
  intros Hrun.
  destruct (returned_calls _ _ _ _ Hrun) as (gr & l & Hg & Hl & ->).
  destruct (calls_draws self gr l) as (Hn & _).
  exists l, (if highlight_nodes self then "red" else "black"), "black".
  split_and!; try done.
  - by intros ->.
  - by intros ->.
  - by destruct (highlight_nodes self).
  - unfold distinct_fill_colours. rewrite Hn.
    destruct (highlight_nodes self); split; try done.
    + by intros _ x y [= <- <-].
    + intros Hd. by destruct (Hd _ _ eq_refl).
Qed.

(** C9. On an object as [init] leaves it, whatever the fields, [postprocess]
    raises at once the [AttributeError] of the missing attribute [g]; the
    figure is untouched.  The exception is the attribute lookup's own: the
    method has no test of its own for this case. *)
Theorem postprocess_before_preprocess
    (hl_nodes hl_edges : bool) (size : Z) (shape : string) (width : float)
    (style : string) (font : Z) (mode path : string) (show : bool) d s :
  postprocess spring_layout lib
    (init hl_nodes hl_edges size shape width style font mode path show) d s
  = (inl (AttributeError "g"), s).
Proof. by apply postprocess_raises, classify_no_graph. Qed.

End Rendering.

(** ** The model on the scenarios of the specification *)

(** The path [A, B, C, D] on the square: the four implied edges, the last one
    closing the cycle. *)
Example square_cycle_edge_list :
  path_edge_list (Coord := Z * Z) (data Square.cycle) []
  = (inr [("A", "B"); ("B", "C"); ("C", "D"); ("D", "A")], []).
Proof. reflexivity. Qed.

(** The path [A, B]: one implied edge, no closing edge. *)
Example square_pair_edge_list :
  path_edge_list (Coord := Z * Z) (data Square.pair) []
  = (inr [("A", "B")], []).
Proof. reflexivity. Qed.

(** Path mode with [A, B, C, D]: all four edges included. *)
Example square_cycle_edges :
  match (classify Square.layout (Square.loaded "path") Square.cycle []).1 with
  | inr l => included_edges l = [("A", "B"); ("B", "C"); ("C", "D"); ("D", "A")]
             ∧ excluded_edges l = []
  | inl _ => False
  end.
Proof. vm_compute. done. Qed.

(** Set mode with [A, C]: no edge joins the two, all four are excluded. *)
Example square_diagonal_edges :
  match (classify Square.layout (Square.loaded "set") Square.diagonal []).1 with
  | inr l => included_edges l = []
             ∧ excluded_edges l
               = [("A", "B"); ("B", "C"); ("C", "D"); ("D", "A")]
             ∧ included_nodes l = ["A"; "C"]
             ∧ excluded_nodes l = ["B"; "D"]
  | inl _ => False
  end.
Proof. vm_compute. done. Qed.

(** The default object draws, in this order: included nodes, excluded nodes,
    bold labels, plain labels, excluded edges, included edges; then it shows
    the figure.  No legend, no file. *)
Example square_default_trace :
  postprocess Square.layout Square.library (Square.loaded "path") Square.pair []
  = let gr := Square.graph in
    let pos := Square.layout gr in
    (inr (Data Square.pair),
     [ draw_networkx_nodes gr pos ["A"; "B"] 300 "black";
       draw_networkx_nodes gr pos ["C"; "D"] 300 "black";
       draw_networkx_labels gr pos [("A", "A"); ("B", "B")] 12 (Some "bold")
         "white";
       draw_networkx_labels gr pos [("C", "C"); ("D", "D")] 12 None "white";
       draw_networkx_edges gr pos [("B", "C"); ("C", "D"); ("D", "A")]
         (PrimFloat.mul 1 0.8) "black";
       draw_networkx_edges gr pos [("A", "B")] 1%float "black";
       plt_show ]).
Proof. reflexivity. Qed.

(** A marker that matplotlib does not know: [Line2D] raises before anything
    is drawn. *)
Example unknown_marker_raises :
  postprocess Square.layout Square.library
    (Square.styled "not_a_marker" "solid" "") Square.pair []
  = (inl (LibraryError "ValueError: Unrecognized marker style 'not_a_marker'"),
     []).
Proof. reflexivity. Qed.

(** A file format that matplotlib does not know: [plt.savefig] raises after
    the drawing calls, and [plt.show] is not reached. *)
Example unknown_format_raises :
  let run := postprocess Square.layout Square.library
               (Square.styled "o" "solid" "out.xyz") Square.pair [] in
  run.1 = inl (LibraryError "ValueError: Format 'xyz' is not supported") ∧
  length run.2 = 7%nat ∧ last run.2 = Some (plt_legend
    [ mkLine2D [0] [0] "o" "solid" "black" "Included" "red" 0 10;
      mkLine2D [0] [0] "o" "solid" "black" "Excluded" "black" 0 10 ] "best").
Proof. done. Qed.

(** [GraphVisualizer()] has no attribute [g] yet. *)
Example default_has_no_graph :
  postprocess Square.layout Square.library default Square.cycle []
  = (inl (AttributeError "g"), []).
Proof. reflexivity. Qed.

(** Out of range, [getitem] raises. *)
Example getitem_past_the_end :
  getitem ["A"; "B"] 2 (@nil unit) = (inl IndexError, [])
  ∧ getitem ["A"; "B"] (-3) (@nil unit) = (inl IndexError, [])
  ∧ getitem ["A"; "B"] (-2) (@nil unit) = (inr "A", []).
Proof. done. Qed.

(** ** The statements on the square *)

(** C1 on the square, in set mode with the diagonal [A, C]: the run succeeds
    and its lists split the four edges and the four nodes. *)
Lemma included_excluded_split_square :
  g (Square.loaded "set") = Some Square.graph ∧
  ∃ l, classify Square.layout (Square.loaded "set") Square.diagonal []
       = (inr l, []) ∧
    (∀ e, e ∈ edges Square.graph ↔ e ∈ included_edges l ∨ e ∈ excluded_edges l) ∧
    (∀ e, ¬ (e ∈ included_edges l ∧ e ∈ excluded_edges l)) ∧
    included_edges l ++ excluded_edges l ≡ₚ edges Square.graph ∧
    (∀ n, n ∈ nodes Square.graph ↔ n ∈ included_nodes l ∨ n ∈ excluded_nodes l) ∧
    (∀ n, ¬ (n ∈ included_nodes l ∧ n ∈ excluded_nodes l)) ∧
    included_nodes l ++ excluded_nodes l ≡ₚ nodes Square.graph.
Proof.
  split; [reflexivity|].
  apply (included_excluded_split Square.layout (Square.loaded "set")
           Square.graph Square.diagonal []).
  - reflexivity.
  - right. reflexivity.
Defined.

(** C2 on the square, with [solution_type = "cycle"]: construction and
    [preprocess] go through, [postprocess] raises and draws nothing. *)
Lemma invalid_solution_type_raises_square :
  g (Square.loaded "cycle") = Some Square.graph ∧
  postprocess Square.layout Square.library (Square.loaded "cycle")
    Square.cycle []
  = (inl (ValueError "solution_type must be 'path' or 'set', and not cycle"),
     []) ∧
  trace (postprocess Square.layout Square.library (Square.loaded "cycle")
           Square.cycle) = [].
Proof.
  split; [reflexivity|].
  apply (invalid_solution_type_raises Square.layout Square.library
           (Square.loaded "cycle") Square.graph Square.cycle []).
  - reflexivity.
  - discriminate.
  - discriminate.
Defined.

(** C3 on the square with the diagonal [A, C]: no edge has both ends in the
    solution, so each of the four is excluded. *)
Lemma set_mode_included_iff_square :
  ∃ l, classify Square.layout (Square.loaded "set") Square.diagonal []
       = (inr l, []) ∧
    ∀ e, e ∈ edges Square.graph →
      (e ∈ included_edges l ↔ e.1 ∈ data Square.diagonal ∧ e.2 ∈ data Square.diagonal) ∧
      (e ∈ excluded_edges l ↔ ¬ (e.1 ∈ data Square.diagonal ∧ e.2 ∈ data Square.diagonal)).
Proof.
  apply (set_mode_included_iff Square.layout (Square.loaded "set")
           Square.graph Square.diagonal []); reflexivity.
Defined.

(** C4 on the square with the path [A, B, C, D]. *)
Lemma path_mode_edges_square :
  ∃ adjacent closing l,
    path_edge_list (Coord := Z * Z) (data Square.cycle) []
    = (inr (adjacent ++ closing), []) ∧
    (∀ (i : nat) a b, adjacent !! i = Some (a, b) ↔
                      data Square.cycle !! i = Some a ∧
                      data Square.cycle !! S i = Some b) ∧
    ((length (data Square.cycle) ≤ 2)%nat →
       closing = [] ∧
       length (adjacent ++ closing) = (length (data Square.cycle) - 1)%nat) ∧
    ((2 < length (data Square.cycle))%nat →
       (∃ a z, head (data Square.cycle) = Some a ∧
               last (data Square.cycle) = Some z ∧ closing = [(z, a)]) ∧
       length (adjacent ++ closing) = length (data Square.cycle)) ∧
    classify Square.layout (Square.loaded "path") Square.cycle [] = (inr l, []) ∧
    (∀ e, e ∈ included_edges l ↔
          e ∈ edges Square.graph ∧
          (e ∈ adjacent ++ closing ∨ (e.2, e.1) ∈ adjacent ++ closing)) ∧
    (∀ e, e ∈ excluded_edges l ↔
          e ∈ edges Square.graph ∧
          ¬ (e ∈ adjacent ++ closing ∨ (e.2, e.1) ∈ adjacent ++ closing)).
Proof.
  apply (path_mode_edges Square.layout (Square.loaded "path")
           Square.graph Square.cycle []); reflexivity.
Defined.

(** C5 on the square: the library takes every call of the default object, and
    the run returns the pair it was given. *)
Lemma passthrough_square :
  (∀ self0 graph, (preprocess Square.as_nx self0 graph).1 = Data graph) ∧
  (∀ r t, postprocess Square.layout Square.library (Square.loaded "path")
            Square.pair [] = (inr r, t) → r = Data Square.pair) ∧
  ∃ l, classify Square.layout (Square.loaded "path") Square.pair []
       = (inr l, []) ∧
    (run_accepted Square.library (Square.loaded "path") Square.graph l [] →
     postprocess Square.layout Square.library (Square.loaded "path")
       Square.pair []
     = (inr (Data Square.pair),
        [] ++ calls_of_run (Square.loaded "path") Square.graph l)) ∧
    (∀ r t, postprocess Square.layout Square.library (Square.loaded "path")
              Square.pair [] = (inr r, t) →
            run_accepted Square.library (Square.loaded "path") Square.graph
              l []).
Proof.
  apply (passthrough Square.as_nx Square.layout Square.library
           (Square.loaded "path") Square.graph Square.pair []).
  - reflexivity.
  - left. reflexivity.
Defined.

(** C6 on the square with both flags set: the run returns and has drawn the
    legend. *)
Lemma legend_iff_highlight_square :
  let self := Square.highlighted "path" in
  let t := trace (postprocess Square.layout Square.library self Square.pair) in
  (highlight_nodes self || highlight_edges self = true →
     ∃ inc exc, legend_draws t = [[inc; exc]] ∧
                label inc = "Included" ∧ label exc = "Excluded") ∧
  (highlight_nodes self || highlight_edges self = false →
     legend_draws t = []) ∧
  (highlight_nodes self || highlight_edges self = false →
     ∀ d', legend_draws
             (trace (postprocess Square.layout Square.library self d')) = []).
Proof.
  apply (legend_iff_highlight Square.layout Square.library
           (Square.highlighted "path") Square.pair (Data Square.pair)).
  reflexivity.
Defined.

(** C10 on the square: [A, C] and [C, A, C] give the same lists. *)
Lemma set_mode_same_elements_square :
  ∃ l1 l2,
    classify Square.layout (Square.loaded "set") Square.diagonal []
    = (inr l1, []) ∧
    classify Square.layout (Square.loaded "set") (mkOther ["C"; "A"; "C"]) []
    = (inr l2, []) ∧
    included_nodes l1 = included_nodes l2 ∧
    excluded_nodes l1 = excluded_nodes l2 ∧
    included_edges l1 = included_edges l2 ∧
    excluded_edges l1 = excluded_edges l2.
Proof.
  apply (set_mode_same_elements Square.layout (Square.loaded "set")
           Square.graph Square.diagonal (mkOther ["C"; "A"; "C"]) []).
  - reflexivity.
  - reflexivity.
  - intros x. cbn [data Square.diagonal].
    rewrite !elem_of_cons, elem_of_nil. tauto.
Defined.

(** C7 as the claim has it fails on the default object with the path [A, B]:
    the run returns, both flags are unset, and the two edge calls still
    differ, the three excluded edges at width 0.8 and the included one at
    width 1. *)
Lemma default_edge_styles_differ :
  let run := postprocess Square.layout Square.library (Square.loaded "path")
               Square.pair [] in
  highlight_nodes (Square.loaded "path") = false ∧
  highlight_edges (Square.loaded "path") = false ∧
  run.1 = inr (Data Square.pair) ∧
  edge_draws run.2
  = [ ([("B", "C"); ("C", "D"); ("D", "A")], PrimFloat.mul 1 0.8, "black");
      ([("A", "B")], 1%float, "black") ] ∧
  ¬ alike (edge_styles run.2).
Proof.
  split_and!; [reflexivity..|].
  intros Hsame.
  assert ((PrimFloat.mul 1 0.8, "black") = (1%float, "black")) as Heq.
  { apply Hsame; apply list_elem_of_In; vm_compute;
      [left | right; left]; reflexivity. }
  apply (f_equal (λ x, PrimFloat.ltb x.1 1)) in Heq.
  vm_compute in Heq. discriminate.
Qed.

(** C7, as the code has it, on the square with both flags set and the path
    [A, B]: red against black for nodes and edges. *)
Lemma highlight_colours_square :
  let self := Square.highlighted "path" in
  let t := trace (postprocess Square.layout Square.library self Square.pair) in
  ∃ l c_nodes c_edges,
    classify Square.layout self Square.pair [] = (inr l, []) ∧
    node_draws t = [ (included_nodes l, node_size self, c_nodes);
                     (excluded_nodes l, node_size self, "black") ] ∧
    edge_draws t
    = [ (excluded_edges l, PrimFloat.mul (edge_width self) 0.8%float, "black");
        (included_edges l, edge_width self, c_edges) ] ∧
    label_draws t = [ (included_pos l, font_size self, Some "bold", "white");
                      (excluded_pos l, font_size self, None, "white") ] ∧
    (highlight_nodes self = true → c_nodes = "red" ∧ c_nodes ≠ "black") ∧
    (highlight_nodes self = false → c_nodes = "black" ∧ alike (node_styles t)) ∧
    (highlight_edges self = true → c_edges = "red" ∧ c_edges ≠ "black") ∧
    (highlight_edges self = false → c_edges = "black").
Proof.
  apply (highlight_colours Square.layout Square.library
           (Square.highlighted "path") Square.pair (Data Square.pair)).
  reflexivity.
Defined.

(** C8 as the claim has it fails on the default object: the run returns, and
    with [highlight_nodes] unset both node calls fill in black. *)
Lemma default_fill_colours_coincide :
  let run := postprocess Square.layout Square.library (Square.loaded "path")
               Square.pair [] in
  highlight_nodes (Square.loaded "path") = false ∧
  run.1 = inr (Data Square.pair) ∧
  node_draws run.2
  = [ (["A"; "B"], 300, "black"); (["C"; "D"], 300, "black") ] ∧
  ¬ distinct_fill_colours run.2.
Proof.
  split_and!; [reflexivity..|].
  intros Hd. by destruct (Hd _ _ eq_refl).
Qed.

(** C8, as the code has it, on the square with [highlight_nodes] set. *)
Lemma node_fill_colours_square :
  let self := Square.highlighted "set" in
  let t := trace (postprocess Square.layout Square.library self
                    Square.diagonal) in
  ∃ l c_inc c_exc,
    classify Square.layout self Square.diagonal [] = (inr l, []) ∧
    node_draws t = [ (included_nodes l, node_size self, c_inc);
                     (excluded_nodes l, node_size self, c_exc) ] ∧
    c_exc = "black" ∧
    (highlight_nodes self = true → c_inc = "red") ∧
    (highlight_nodes self = false → c_inc = "black") ∧
    (c_inc ≠ c_exc ↔ highlight_nodes self = true) ∧
    (distinct_fill_colours t ↔ highlight_nodes self = true).
Proof.
  apply (node_fill_colours Square.layout Square.library
           (Square.highlighted "set") Square.diagonal (Data Square.diagonal)).
  reflexivity.
Defined.

(** * Further properties of the two methods *)

(** ** Vocabulary *)

(** The list lines 46-48 build, as [path_edge_list_run] gives it. *)
Definition implied_edges {Node} (sol : list Node) : list (Node * Node) :=
  zip sol (tail sol) ++ closing_edge sol.

(** A graph whose edges join nodes of the graph. *)
Definition edges_join_nodes {Node} (gr : @NxGraph Node) : Prop :=
  ∀ e, e ∈ edges gr → e.1 ∈ nodes gr ∧ e.2 ∈ nodes gr.

(** The graph argument of a drawing call. *)
Definition drawn_graph {Node Coord} (c : @PlotCall Node Coord)
    : option (@NxGraph Node) :=
  match c with
  | draw_networkx_nodes G _ _ _ _ => Some G
  | draw_networkx_labels G _ _ _ _ _ => Some G
  | draw_networkx_edges G _ _ _ _ => Some G
  | _ => None
  end.

(** The object with [node_shape] and [edge_style] replaced. *)
Definition with_shape_and_style {Node} (self : @GraphVisualizer Node)
    (shape style : string) : @GraphVisualizer Node :=
  mkGraphVisualizer (highlight_nodes self) (highlight_edges self)
    (node_size self) shape (edge_width self) style (font_size self)
    (solution_type self) (save_path self) (show_plot self) (g self).



(** ** Filters *)

Section Filters.
Context {A : Type}.
Implicit Types l : list A.

Lemma filter_none (P : A → Prop) `{!∀ x, Decision (P x)} l :
  (∀ x, x ∈ l → ¬ P x) → filter P l = [].
Proof.
  induction l as [|a l IH]; intros Hl; [done|].
  rewrite filter_cons_False by (apply Hl; left).
  apply IH. intros x Hx. apply Hl. by right.
Qed.

Lemma filter_all (P : A → Prop) `{!∀ x, Decision (P x)} l :
  (∀ x, x ∈ l → P x) → filter P l = l.
Proof.
  induction l as [|a l IH]; intros Hl; [done|].
  rewrite filter_cons_True by (apply Hl; left).
  f_equal. apply IH. intros x Hx. apply Hl. by right.
Qed.

(** A weaker test keeps more. *)
Lemma filter_sublist_mono (P Q : A → Prop)
    `{!∀ x, Decision (P x), !∀ x, Decision (Q x)} l :
  (∀ x, x ∈ l → P x → Q x) → filter P l `sublist_of` filter Q l.
Proof.
  induction l as [|a l IH]; intros HPQ; [done|].
  assert (filter P l `sublist_of` filter Q l) as Hrec
    by (apply IH; intros x Hx; apply HPQ; by right).
  rewrite !filter_cons.
  destruct (decide (P a)) as [Hp|Hp], (decide (Q a)) as [Hq|Hq].
  - by apply sublist_skip.
  - destruct Hq. apply HPQ; [left|done].
  - by apply sublist_cons.
  - done.
Qed.

(** Filtering the image of a list filters the list. *)
Lemma filter_fmap_key {B} (f : A → B) (P : B → Prop)
    `{!∀ y, Decision (P y)} l :
  filter P (f <$> l) = f <$> filter (λ x, P (f x)) l.
Proof.
  induction l as [|a l IH]; [done|].
  rewrite fmap_cons, !filter_cons, IH.
  by destruct (decide (P (f a))).
Qed.

End Filters.

(** ** Outcomes, and how the two methods compose *)

Section Outcomes.
Context {Node : Type} `{EqDecision Node}.
Context {Graph : Type} (as_nx_graph : Graph → @NxGraph Node).
Context {Coord : Type} (spring_layout : @NxGraph Node → list (Node * Coord)).
Context (lib : @PlotLibrary Node Coord).
Implicit Types (self : @GraphVisualizer Node) (gr : @NxGraph Node).
Implicit Types (d : @Other Node) (sol : list Node).
Implicit Types (l : @Locals Node Coord).
Implicit Types (s : list (@PlotCall Node Coord)).

(** A run makes at least the six drawing calls. *)
Lemma calls_of_run_length self gr l : (6 ≤ length (calls_of_run self gr l))%nat.
Proof.
  unfold calls_of_run, drawing_calls. rewrite !length_app. cbn [length]. lia.
Qed.

(** X1. [postprocess] has four kinds of outcome and no other.  On an object
    without a graph it raises [AttributeError], whatever the mode.  On an
    object with a graph and a mode other than "path" and "set" it raises the
    [ValueError] of line 55.  Both leave the figure as it was.  Otherwise
    lines 40-55 go through, for every solution (the indexing of lines 46-48
    does not fail, on an empty or short solution either), and the method
    returns [Data(data)] with all its calls made if the plotting libraries
    refuse nothing; if they refuse something, their exception comes out, and
    the figure has received a proper start of the calls of the run. *)
Theorem postprocess_outcomes self d s :
  let r := postprocess spring_layout lib self d s in
  (r = (inl (AttributeError "g"), s) ∧ g self = None)
  ∨ (r = (inl (ValueError ("solution_type must be 'path' or 'set', and not "
                           +:+ solution_type self)), s) ∧
     is_Some (g self) ∧
     solution_type self ≠ "path" ∧ solution_type self ≠ "set")
  ∨ (∃ gr l,
       g self = Some gr ∧
       (solution_type self = "path" ∨ solution_type self = "set") ∧
       classify spring_layout self d s = (inr l, s) ∧
       ((run_accepted lib self gr l s ∧
         r = (inr (Data d), s ++ calls_of_run self gr l))
        ∨ (¬ run_accepted lib self gr l s ∧
           ∃ what returned,
             r = (inl (LibraryError what), s ++ returned) ∧
             returned `prefix_of` calls_of_run self gr l ∧
             (length returned < length (calls_of_run self gr l))%nat))).
Proof.
  intros r. subst r. destruct (g self) as [gr|] eqn:Hg.
  - destruct (decide (solution_type self = "path")) as [Hp|Hp];
      [|destruct (decide (solution_type self = "set")) as [Hs|Hs]].
    3: { right. left. split_and!; eauto.
         by apply postprocess_raises, (classify_invalid _ _ gr). }
    all: right; right;
      (assert (solution_type self = "path" ∨ solution_type self = "set")
         as Hty by auto);
      destruct (classify_valid spring_layout self gr d s Hg Hty) as [l Hl];
      exists gr, l; split; [done|]; split; [done|]; split; [done|];
      rewrite (postprocess_run _ _ self gr d l s Hg Hl); unfold run_accepted;
      pose proof (calls_of_run_length self gr l) as Hlen;
      (destruct (Line2D_error lib (legend_included self)) as [what|];
         [right; split; [by intros (? & _)|];
          exists what, []; rewrite app_nil_r; split_and!;
          [done|apply prefix_nil|cbn [length]; lia]|]);
      (destruct (Line2D_error lib (legend_excluded self)) as [what|];
         [right; split; [by intros (_ & ? & _)|];
          exists what, []; rewrite app_nil_r; split_and!;
          [done|apply prefix_nil|cbn [length]; lia]|]);
      (destruct (first_error lib s (calls_of_run self gr l))
         as [[returned what]|] eqn:Herr; [|by left]);
      right; (split; [by intros (_ & _ & ?)|]);
      exists what, returned;
      destruct (first_error_Some _ _ _ _ _ Herr) as (c & rest & Hcs & _);
      (split_and!; [done|by exists (c :: rest)|]);
      rewrite Hcs, length_app; cbn [length]; lia.
  - left. split; [|done].
    by apply postprocess_raises, classify_no_graph.
Qed.

(** The drawing calls of a run carry the graph on the object. *)
Lemma drawn_graph_of_calls self gr l c G :
  c ∈ calls_of_run self gr l → drawn_graph c = Some G → G = gr.
Proof.
  unfold calls_of_run, drawing_calls. intros Hc HG.
  destruct (highlight_nodes self || highlight_edges self),
    (save_path self =? "")%string, (show_plot self);
    cbn [app] in Hc;
    repeat (apply elem_of_cons in Hc as [->|Hc]; [by simplify_eq/=|]);
    by apply elem_of_nil in Hc.
Qed.

(** So do those of a run that a library call cuts short. *)
Lemma drawn_graph_of_run self gr d :
  g self = Some gr →
  ∀ c G, c ∈ trace (postprocess spring_layout lib self d) →
         drawn_graph c = Some G → G = gr.
Proof.
  intros Hg c G Hc HG. unfold trace in Hc.
  destruct (decide (solution_type self = "path")) as [Hp|Hp];
    [|destruct (decide (solution_type self = "set")) as [Hs|Hs]].
  3: { rewrite (postprocess_raises _ _ _ _ _ _ _
                  (classify_invalid spring_layout self gr d [] Hg Hp Hs)) in Hc.
       by apply elem_of_nil in Hc. }
  all: (destruct (classify_valid spring_layout self gr d [] Hg) as [l Hl];
         [by auto|]);
    rewrite (postprocess_run _ _ self gr d l [] Hg Hl) in Hc;
    (destruct (Line2D_error lib (legend_included self));
       [by apply elem_of_nil in Hc|]);
    (destruct (Line2D_error lib (legend_excluded self));
       [by apply elem_of_nil in Hc|]);
    (destruct (first_error lib [] (calls_of_run self gr l))
       as [[returned what]|] eqn:Herr;
       [|by apply (drawn_graph_of_calls self gr l c G)]);
    destruct (first_error_Some _ _ _ _ _ Herr) as (c' & rest & Hcs & _);
    apply (drawn_graph_of_calls self gr l c G); [|done];
    rewrite Hcs; apply elem_of_app; by left.
Qed.

(** With a graph on the object, the failure for want of one does not occur. *)
Lemma loaded_not_attribute_error self gr d s :
  g self = Some gr →
  (postprocess spring_layout lib self d s).1 ≠ inl (AttributeError "g").
Proof.
  intros Hg.
  destruct (decide (solution_type self = "path")) as [Hp|Hp];
    [|destruct (decide (solution_type self = "set")) as [Hs|Hs]].
  3: by rewrite (postprocess_raises _ _ _ _ _ _ _
                   (classify_invalid spring_layout self gr d s Hg Hp Hs)).
  all: (destruct (classify_valid spring_layout self gr d s Hg) as [l Hl];
         [by auto|]);
    rewrite (postprocess_run _ _ self gr d l s Hg Hl);
    destruct (Line2D_error lib (legend_included self)); [done|];
    destruct (Line2D_error lib (legend_excluded self)); [done|];
    by destruct (first_error lib s (calls_of_run self gr l)) as [[? ?]|].
Qed.

(** X2. [preprocess] replaces the stored graph and nothing else: after
    [preprocess(a)] and then [preprocess(b)] the object is the one
    [preprocess(b)] alone gives, with the mode and the other fields it had.
    [postprocess] on it does not fail for want of a graph, and every drawing
    call it makes is given the networkx view of [b]. *)
Theorem preprocess_replaces_graph self (a b : Graph) d s :
  let self1 := (preprocess as_nx_graph self b).2 in
  (preprocess as_nx_graph (preprocess as_nx_graph self a).2 b).2 = self1 ∧
  g self1 = Some (as_nx_graph b) ∧
  (highlight_nodes self1 = highlight_nodes self ∧
   highlight_edges self1 = highlight_edges self ∧
   node_size self1 = node_size self ∧ node_shape self1 = node_shape self ∧
   edge_width self1 = edge_width self ∧ edge_style self1 = edge_style self ∧
   font_size self1 = font_size self ∧
   solution_type self1 = solution_type self ∧
   save_path self1 = save_path self ∧ show_plot self1 = show_plot self) ∧
  (postprocess spring_layout lib self1 d s).1 ≠ inl (AttributeError "g") ∧
  ∀ c G, c ∈ trace (postprocess spring_layout lib self1 d) →
         drawn_graph c = Some G → G = as_nx_graph b.
Proof.
  intros self1. split_and!; try done.
  - by apply (loaded_not_attribute_error _ (as_nx_graph b)).
  - by apply drawn_graph_of_run.
Qed.

End Outcomes.

(** ** Edge cases and order of the lists *)

Section Lists.
Context {Node : Type} `{EqDecision Node}.
Context {Coord : Type} (spring_layout : @NxGraph Node → list (Node * Coord)).
Implicit Types (self : @GraphVisualizer Node) (gr : @NxGraph Node).
Implicit Types (d : @Other Node) (sol : list Node).
Implicit Types (s : list (@PlotCall Node Coord)).

(** The ends of an implied edge are elements of the solution. *)
Lemma implied_edge_ends sol e :
  e ∈ implied_edges sol → e.1 ∈ sol ∧ e.2 ∈ sol.
Proof.
  unfold implied_edges, closing_edge. rewrite elem_of_app.
  destruct e as [a b]. intros [Hadj|Hclose].
  - split; [by eapply elem_of_zip_l|].
    apply elem_of_zip_r in Hadj. apply list_elem_of_lookup in Hadj as [i Hi].
    rewrite lookup_tail in Hi. by eapply list_elem_of_lookup_2.
  - destruct (2 <? len sol); [|by apply elem_of_nil in Hclose].
    destruct (last sol) as [z|] eqn:Hz, (head sol) as [x|] eqn:Hx;
      try by apply elem_of_nil in Hclose.
    apply list_elem_of_singleton in Hclose as [= -> ->]. cbn.
    split; [by apply last_Some_elem_of|by apply head_Some_elem_of].
Qed.

(** X3. With the empty solution, in path mode and in set mode, nothing is
    included: both included lists and the bold labels are empty, and the
    excluded lists are the graph's nodes and edges, in the graph's order. *)
Theorem empty_solution_excludes_all self gr s :
  g self = Some gr →
  solution_type self = "path" ∨ solution_type self = "set" →
  ∃ l, classify spring_layout self (mkOther []) s = (inr l, s) ∧
    included_nodes l = [] ∧ excluded_nodes l = nodes gr ∧
    included_edges l = [] ∧ excluded_edges l = edges gr ∧
    included_pos l = [].
Proof.
  intros Hg Hty.
  assert (∀ ns : list Node, filter (λ n, n ∈ @nil Node) ns = []) as Hin.
  { intros ns. apply filter_none. intros x _. apply not_elem_of_nil. }
  assert (∀ ns : list Node, filter (λ n, n ∉ @nil Node) ns = ns) as Hout.
  { intros ns. apply filter_all. intros x _. apply not_elem_of_nil. }
  assert (∀ es : list (Node * Node), filter (λ e, e ∉ @nil (Node * Node)) es = es)
    as Hrest.
  { intros es. apply filter_all. intros x _. apply not_elem_of_nil. }
  destruct Hty as [Hty|Hty]; eexists.
  - split; [by apply classify_path|].
    cbn [included_nodes excluded_nodes included_edges excluded_edges
           included_pos data].
    assert (filter (λ e : Node * Node,
              e ∈ zip (@nil Node) (tail []) ++ closing_edge []
              ∨ (e.2, e.1) ∈ zip (@nil Node) (tail []) ++ closing_edge [])
              (edges gr) = []) as ->.
    { apply filter_none. intros x _ [Hx|Hx]; by apply elem_of_nil in Hx. }
    rewrite Hin, Hout, Hrest.
    split_and!; try done.
    rewrite (filter_none (λ item : Node * Coord, item.1 ∈ [])); [done|].
    intros x _. apply not_elem_of_nil.
  - split; [by apply classify_set|].
    cbn [included_nodes excluded_nodes included_edges excluded_edges
           included_pos data].
    assert (filter (λ e : Node * Node, e.1 ∈ [] ∧ e.2 ∈ []) (edges gr) = [])
      as ->.
    { apply filter_none. intros x _ [Hx _]. by apply elem_of_nil in Hx. }
    rewrite Hin, Hout, Hrest.
    split_and!; try done.
    rewrite (filter_none (λ item : Node * Coord, item.1 ∈ [])); [done|].
    intros x _. apply not_elem_of_nil.
Qed.

(** X4. In path mode a solution of one element implies no edge: every edge of
    the graph is excluded, a loop at that element too, while the element itself
    is among the included nodes if it is a node of the graph. *)
Theorem single_element_path self gr a s :
  g self = Some gr → solution_type self = "path" →
  ∃ l, classify spring_layout self (mkOther [a]) s = (inr l, s) ∧
    included_edges l = [] ∧ excluded_edges l = edges gr ∧
    (∀ n, n ∈ included_nodes l ↔ n = a ∧ a ∈ nodes gr).
Proof.
  intros Hg Hty. eexists. split; [by apply classify_path|].
  cbn [included_nodes included_edges excluded_edges data].
  assert (filter (λ e : Node * Node,
            e ∈ zip [a] (tail [a]) ++ closing_edge [a]
            ∨ (e.2, e.1) ∈ zip [a] (tail [a]) ++ closing_edge [a])
            (edges gr) = []) as ->.
  { apply filter_none. intros x _ [Hx|Hx]; by apply elem_of_nil in Hx. }
  split_and!; try done.
  - apply filter_all. intros x _. apply not_elem_of_nil.
  - intros n. rewrite list_elem_of_filter, list_elem_of_singleton.
    split; by intros [-> ?].
Qed.

(** X5. The four lists keep the graph's order: each is a sublist of the
    graph's node list or edge list.  So a graph without repeated nodes or
    edges gives lists without repetitions. *)
Theorem lists_keep_graph_order self gr d s :
  g self = Some gr →
  solution_type self = "path" ∨ solution_type self = "set" →
  ∃ l, classify spring_layout self d s = (inr l, s) ∧
    included_nodes l `sublist_of` nodes gr ∧
    excluded_nodes l `sublist_of` nodes gr ∧
    included_edges l `sublist_of` edges gr ∧
    excluded_edges l `sublist_of` edges gr ∧
    (NoDup (nodes gr) → NoDup (included_nodes l) ∧ NoDup (excluded_nodes l)) ∧
    (NoDup (edges gr) → NoDup (included_edges l) ∧ NoDup (excluded_edges l)).
Proof.
  intros Hg Hty.
  assert (∀ l : @Locals Node Coord,
    included_nodes l `sublist_of` nodes gr →
    excluded_nodes l `sublist_of` nodes gr →
    included_edges l `sublist_of` edges gr →
    excluded_edges l `sublist_of` edges gr →
    included_nodes l `sublist_of` nodes gr ∧
    excluded_nodes l `sublist_of` nodes gr ∧
    included_edges l `sublist_of` edges gr ∧
    excluded_edges l `sublist_of` edges gr ∧
    (NoDup (nodes gr) → NoDup (included_nodes l) ∧ NoDup (excluded_nodes l)) ∧
    (NoDup (edges gr) → NoDup (included_edges l) ∧ NoDup (excluded_edges l)))
    as Hall.
  { intros l ????. split_and!; try done.
    - intros Hnd. split; by eapply sublist_NoDup.
    - intros Hnd. split; by eapply sublist_NoDup. }
  destruct Hty as [Hty|Hty]; eexists.
  - split; [by apply classify_path|]. apply Hall; apply sublist_filter; apply _.
  - split; [by apply classify_set|]. apply Hall; apply sublist_filter; apply _.
Qed.

End Lists.

(** ** The two modes, and the solution against the graph *)

Section Modes.
Context {Node : Type} `{EqDecision Node}.
Context {Coord : Type} (spring_layout : @NxGraph Node → list (Node * Coord)).
Implicit Types (self : @GraphVisualizer Node) (gr : @NxGraph Node).
Implicit Types (d : @Other Node) (sol : list Node).
Implicit Types (s : list (@PlotCall Node Coord)).

(** X6. On the same graph and solution, what path mode includes set mode
    includes too: an edge on the path has both ends in the solution.  The
    included edges of path mode are a sublist of those of set mode, the
    excluded edges of set mode a sublist of those of path mode, and the node
    lists are the same. *)
Theorem path_edges_within_set_edges self_path self_set gr d s :
  g self_path = Some gr → g self_set = Some gr →
  solution_type self_path = "path" → solution_type self_set = "set" →
  ∃ lp ls,
    classify spring_layout self_path d s = (inr lp, s) ∧
    classify spring_layout self_set d s = (inr ls, s) ∧
    included_edges lp `sublist_of` included_edges ls ∧
    excluded_edges ls `sublist_of` excluded_edges lp ∧
    included_nodes lp = included_nodes ls ∧
    excluded_nodes lp = excluded_nodes ls.
Proof.
  intros Hgp Hgs Hp Hs. do 2 eexists.
  split; [by apply classify_path|]. split; [by apply classify_set|].
  cbn [included_nodes excluded_nodes included_edges excluded_edges].
  assert (∀ e : Node * Node,
    e ∈ implied_edges (data d) ∨ (e.2, e.1) ∈ implied_edges (data d) →
    e.1 ∈ data d ∧ e.2 ∈ data d) as Hends.
  { intros e [He|He]; apply implied_edge_ends in He; cbn in He; tauto. }
  split_and!; try done.
  - apply filter_sublist_mono. intros e _. apply Hends.
  - rewrite !filter_not_in_kept. apply filter_sublist_mono.
    intros e _ Hn Hpath. apply Hn. by apply Hends.
Qed.

(** X7. On a graph whose edges join its own nodes, the highlighted edges join
    highlighted nodes: in either mode both ends of an included edge are
    included nodes. *)
Theorem included_edges_join_included_nodes self gr d s :
  g self = Some gr →
  solution_type self = "path" ∨ solution_type self = "set" →
  edges_join_nodes gr →
  ∃ l, classify spring_layout self d s = (inr l, s) ∧
    ∀ e, e ∈ included_edges l →
         e.1 ∈ included_nodes l ∧ e.2 ∈ included_nodes l.
Proof.
  intros Hg Hty Hwf. destruct Hty as [Hty|Hty]; eexists.
  - split; [by apply classify_path|].
    cbn [included_nodes included_edges]. intros e.
    rewrite !list_elem_of_filter. intros [Hpath He].
    destruct (Hwf e He) as [H1 H2].
    assert (e.1 ∈ data d ∧ e.2 ∈ data d) as [? ?]; [|done].
    destruct Hpath as [Hin|Hin];
      apply (implied_edge_ends (data d)) in Hin; cbn in Hin; tauto.
  - split; [by apply classify_set|].
    cbn [included_nodes included_edges]. intros e.
    rewrite !list_elem_of_filter. intros [[? ?] He].
    by destruct (Hwf e He).
Qed.

(** X8. In set mode, on a graph whose edges join its own nodes, the elements
    of the solution that are not nodes of the graph have no effect and raise
    nothing: two solutions that contain the same nodes of the graph give the
    same four lists. *)
Theorem set_mode_ignores_foreign_elements self gr d1 d2 s :
  g self = Some gr → solution_type self = "set" →
  edges_join_nodes gr →
  (∀ x, x ∈ nodes gr → x ∈ data d1 ↔ x ∈ data d2) →
  ∃ l1 l2,
    classify spring_layout self d1 s = (inr l1, s) ∧
    classify spring_layout self d2 s = (inr l2, s) ∧
    included_nodes l1 = included_nodes l2 ∧
    excluded_nodes l1 = excluded_nodes l2 ∧
    included_edges l1 = included_edges l2 ∧
    excluded_edges l1 = excluded_edges l2.
Proof.
  intros Hg Hty Hwf Hsame. do 2 eexists.
  split; [by apply classify_set|]. split; [by apply classify_set|].
  cbn [included_nodes excluded_nodes included_edges excluded_edges].
  assert (filter (λ e : Node * Node, e.1 ∈ data d1 ∧ e.2 ∈ data d1) (edges gr)
          = filter (λ e, e.1 ∈ data d2 ∧ e.2 ∈ data d2) (edges gr)) as Hinc.
  { apply filter_ext_in. intros e He. destruct (Hwf e He) as [H1 H2].
    by rewrite (Hsame _ H1), (Hsame _ H2). }
  split_and!.
  - apply filter_ext_in. intros n Hn. by apply Hsame.
  - apply filter_ext_in. intros n Hn. by rewrite (Hsame _ Hn).
  - done.
  - by rewrite Hinc.
Qed.

(** X9. In set mode a larger solution highlights more: if every element of
    one solution occurs in another, the included nodes and edges of the first
    are sublists of those of the second, and the excluded ones the other way
    round. *)
Theorem set_mode_monotone self gr d1 d2 s :
  g self = Some gr → solution_type self = "set" →
  (∀ x, x ∈ data d1 → x ∈ data d2) →
  ∃ l1 l2,
    classify spring_layout self d1 s = (inr l1, s) ∧
    classify spring_layout self d2 s = (inr l2, s) ∧
    included_nodes l1 `sublist_of` included_nodes l2 ∧
    excluded_nodes l2 `sublist_of` excluded_nodes l1 ∧
    included_edges l1 `sublist_of` included_edges l2 ∧
    excluded_edges l2 `sublist_of` excluded_edges l1.
Proof.
  intros Hg Hty Hsub. do 2 eexists.
  split; [by apply classify_set|]. split; [by apply classify_set|].
  cbn [included_nodes excluded_nodes included_edges excluded_edges].
  split_and!.
  - apply filter_sublist_mono. intros n _. apply Hsub.
  - apply filter_sublist_mono. intros n _ Hn H1. apply Hn. by apply Hsub.
  - apply filter_sublist_mono. intros e _ [? ?]. split; by apply Hsub.
  - rewrite !filter_not_in_kept. apply filter_sublist_mono.
    intros e _ Hn [? ?]. apply Hn. split; by apply Hsub.
Qed.

End Modes.

(** ** Path mode does not depend on where the path starts or which way it runs *)

Section PathSymmetry.
Context {Node : Type} `{EqDecision Node}.
Context {Coord : Type} (spring_layout : @NxGraph Node → list (Node * Coord)).
Implicit Types (self : @GraphVisualizer Node) (gr : @NxGraph Node).
Implicit Types (d : @Other Node) (sol rest : list Node) (e : Node * Node).
Implicit Types (s : list (@PlotCall Node Coord)).

Lemma adjacent_cons a sol :
  zip (a :: sol) (tail (a :: sol))
  = match head sol with Some b => [(a, b)] | None => [] end
    ++ zip sol (tail sol).
Proof. by destruct sol. Qed.

Lemma adjacent_snoc sol x :
  zip (sol ++ [x]) (tail (sol ++ [x]))
  = zip sol (tail sol)
    ++ match last sol with Some z => [(z, x)] | None => [] end.
Proof.
  induction sol as [|a [|b sol] IH]; [done..|].
  change ((a :: b :: sol) ++ [x]) with (a :: (b :: sol) ++ [x]).
  rewrite (adjacent_cons a ((b :: sol) ++ [x])), IH, last_cons_cons.
  by rewrite (adjacent_cons a (b :: sol)).
Qed.

Lemma adjacent_reverse sol :
  zip (reverse sol) (tail (reverse sol))
  = reverse ((λ e, (e.2, e.1)) <$> zip sol (tail sol)).
Proof.
  induction sol as [|a sol IH]; [done|].
  rewrite reverse_cons, adjacent_snoc, IH, last_reverse, adjacent_cons.
  rewrite fmap_app, reverse_app. by destruct (head sol).
Qed.

Lemma closing_edge_reverse sol :
  closing_edge (reverse sol) = (λ e, (e.2, e.1)) <$> closing_edge sol.
Proof.
  unfold closing_edge, len.
  rewrite length_reverse, last_reverse, head_reverse.
  destruct (2 <? Z.of_nat (length sol)); [|done].
  by destruct (head sol), (last sol).
Qed.

Lemma closing_edge_long sol a z :
  (2 < length sol)%nat → head sol = Some a → last sol = Some z →
  closing_edge sol = [(z, a)].
Proof.
  intros Hlen Ha Hz. unfold closing_edge, len. rewrite Ha, Hz.
  by destruct (Z.ltb_spec 2 (Z.of_nat (length sol))); [|lia].
Qed.

(** The reversed path implies the reversed edges. *)
Lemma implied_edges_reverse sol e :
  e ∈ implied_edges (reverse sol) ↔ (e.2, e.1) ∈ implied_edges sol.
Proof.
  assert (∀ L : list (Node * Node),
    e ∈ (λ e, (e.2, e.1)) <$> L ↔ (e.2, e.1) ∈ L) as Hswap.
  { intros L. rewrite list_elem_of_fmap. split.
    - by intros ([x y] & -> & Hx).
    - intros He. exists (e.2, e.1). by destruct e. }
  unfold implied_edges.
  rewrite adjacent_reverse, closing_edge_reverse.
  by rewrite !elem_of_app, elem_of_reverse, !Hswap.
Qed.

(** An edge or its reverse is implied. *)
Definition on_path sol e : Prop :=
  e ∈ implied_edges sol ∨ (e.2, e.1) ∈ implied_edges sol.

Lemma on_path_reverse sol e : on_path (reverse sol) e ↔ on_path sol e.
Proof.
  unfold on_path. rewrite !implied_edges_reverse. cbn [fst snd].
  destruct e as [a b]. cbn [fst snd]. tauto.
Qed.

(** Moving the first element to the end. *)
Lemma on_path_rotate a rest e :
  on_path (rest ++ [a]) e ↔ on_path (a :: rest) e.
Proof.
  destruct rest as [|b [|c rest]].
  - done.
  - unfold on_path. destruct e as [x y].
    change (implied_edges ([b] ++ [a])) with [(b, a)].
    change (implied_edges [a; b]) with [(a, b)].
    rewrite !list_elem_of_singleton. cbn [fst snd].
    split; intros [[= -> ->]|[= -> ->]]; auto.
  - assert (∃ z, last (b :: c :: rest) = Some z) as [z Hz].
    { rewrite last_lookup. apply lookup_lt_is_Some_2. cbn [length]. lia. }
    assert (∀ e', e' ∈ implied_edges ((b :: c :: rest) ++ [a])
                  ↔ e' ∈ implied_edges (a :: b :: c :: rest)) as Hsame.
    { intros e'. unfold implied_edges.
      rewrite adjacent_snoc, Hz.
      rewrite (closing_edge_long ((b :: c :: rest) ++ [a]) b a);
        [|rewrite length_app; cbn [length]; lia|done|apply last_snoc].
      rewrite (adjacent_cons a (b :: c :: rest)). cbn [head].
      rewrite (closing_edge_long (a :: b :: c :: rest) a z);
        [|cbn [length]; lia|done|by rewrite last_cons_cons].
      rewrite !elem_of_app, !list_elem_of_singleton. tauto. }
    unfold on_path. by rewrite !Hsame.
Qed.

(** Path mode sees the solution through its elements and through [on_path]. *)
Lemma path_lists_ext self gr d1 d2 s :
  g self = Some gr → solution_type self = "path" →
  (∀ x, x ∈ data d1 ↔ x ∈ data d2) →
  (∀ e, on_path (data d1) e ↔ on_path (data d2) e) →
  ∃ l1 l2,
    classify spring_layout self d1 s = (inr l1, s) ∧
    classify spring_layout self d2 s = (inr l2, s) ∧
    included_nodes l1 = included_nodes l2 ∧
    excluded_nodes l1 = excluded_nodes l2 ∧
    included_edges l1 = included_edges l2 ∧
    excluded_edges l1 = excluded_edges l2.
Proof.
  intros Hg Hty Hnodes Hedges. do 2 eexists.
  split; [by apply classify_path|]. split; [by apply classify_path|].
  cbn [included_nodes excluded_nodes included_edges excluded_edges].
  assert (filter (λ e : Node * Node,
            e ∈ zip (data d1) (tail (data d1)) ++ closing_edge (data d1)
            ∨ (e.2, e.1) ∈ zip (data d1) (tail (data d1))
                             ++ closing_edge (data d1)) (edges gr)
          = filter (λ e : Node * Node,
            e ∈ zip (data d2) (tail (data d2)) ++ closing_edge (data d2)
            ∨ (e.2, e.1) ∈ zip (data d2) (tail (data d2))
                             ++ closing_edge (data d2)) (edges gr)) as Hinc.
  { apply list_filter_iff. intros e. apply Hedges. }
  split_and!.
  - apply list_filter_iff. intros n. apply Hnodes.
  - apply list_filter_iff. intros n. by rewrite Hnodes.
  - done.
  - by rewrite Hinc.
Qed.

(** X10. Path mode does not see the direction of the path: the solution read
    backwards gives the same four lists. *)
Theorem path_mode_reversal self gr d s :
  g self = Some gr → solution_type self = "path" →
  ∃ l1 l2,
    classify spring_layout self d s = (inr l1, s) ∧
    classify spring_layout self (mkOther (reverse (data d))) s = (inr l2, s) ∧
    included_nodes l1 = included_nodes l2 ∧
    excluded_nodes l1 = excluded_nodes l2 ∧
    included_edges l1 = included_edges l2 ∧
    excluded_edges l1 = excluded_edges l2.
Proof.
  intros Hg Hty. apply (path_lists_ext self gr); try done; cbn [data].
  - intros x. by rewrite elem_of_reverse.
  - intros e. by rewrite on_path_reverse.
Qed.

(** X11. Path mode does not see where the path starts: the solution with its
    first element moved to the end gives the same four lists, for a path of
    any length. *)
Theorem path_mode_rotation self gr a rest s :
  g self = Some gr → solution_type self = "path" →
  ∃ l1 l2,
    classify spring_layout self (mkOther (a :: rest)) s = (inr l1, s) ∧
    classify spring_layout self (mkOther (rest ++ [a])) s = (inr l2, s) ∧
    included_nodes l1 = included_nodes l2 ∧
    excluded_nodes l1 = excluded_nodes l2 ∧
    included_edges l1 = included_edges l2 ∧
    excluded_edges l1 = excluded_edges l2.
Proof.
  intros Hg Hty. apply (path_lists_ext self gr); try done; cbn [data].
  - intros x. rewrite elem_of_app, elem_of_cons, list_elem_of_singleton. tauto.
  - intros e. by rewrite on_path_rotate.
Qed.

End PathSymmetry.

(** ** Labels, legend, file and window *)

(** The file names of the [plt.savefig] calls of a trace. *)
Definition savefig_calls {Node Coord} (t : list (@PlotCall Node Coord))
    : list string :=
  omap (λ c, match c with plt_savefig fname => Some fname | _ => None end) t.

Definition is_show {Node Coord} (c : @PlotCall Node Coord) : bool :=
  match c with plt_show => true | _ => false end.

(** The number of [plt.show] calls of a trace. *)
Definition show_calls {Node Coord} (t : list (@PlotCall Node Coord)) : nat :=
  length (filter (λ c, is_show c = true) t).

Section Figure.
Context {Node : Type} `{EqDecision Node}.
Context {Coord : Type} (spring_layout : @NxGraph Node → list (Node * Coord)).
Context (lib : @PlotLibrary Node Coord).
Implicit Types (self : @GraphVisualizer Node) (gr : @NxGraph Node).
Implicit Types (d : @Other Node) (sol : list Node).
Implicit Types (l : @Locals Node Coord).
Implicit Types (s t : list (@PlotCall Node Coord)).

(** A run from an empty figure that returns: the object, the lists and the
    calls. *)
Lemma returned_run self d r t :
  postprocess spring_layout lib self d [] = (inr r, t) →
  ∃ gr l, g self = Some gr ∧
          (solution_type self = "path" ∨ solution_type self = "set") ∧
          classify spring_layout self d [] = (inr l, []) ∧
          r = Data d ∧ t = calls_of_run self gr l.
Proof.
  intros Hrun.
  destruct (postprocess_returned _ _ _ _ _ _ _ Hrun)
    as (gr & l & Hg & Hty & Hl & _ & -> & ->).
  by exists gr, l.
Qed.

(** The label calls among the calls of a run. *)
Lemma calls_labels self gr l :
  label_draws (calls_of_run self gr l)
  = [ (included_pos l, font_size self, Some "bold", "white");
      (excluded_pos l, font_size self, None, "white") ].
Proof.
  unfold calls_of_run, drawing_calls.
  by destruct (highlight_nodes self || highlight_edges self),
    (save_path self =? "")%string, (show_plot self).
Qed.

(** A sequence of calls in two parts. *)
Lemma first_error_app s cs1 cs2 :
  first_error lib s (cs1 ++ cs2)
  = match first_error lib s cs1 with
    | Some e => Some e
    | None =>
        match first_error lib (s ++ cs1) cs2 with
        | Some (returned, what) => Some (cs1 ++ returned, what)
        | None => None
        end
    end.
Proof.
  revert s. induction cs1 as [|c cs1 IH]; intros s.
  - cbn. rewrite app_nil_r. by destruct (first_error lib s cs2) as [[? ?]|].
  - cbn [app first_error]. destruct (call_error lib s c); [done|].
    rewrite IH. destruct (first_error lib (s ++ [c]) cs1) as [[? ?]|]; [done|].
    rewrite <- app_assoc.
    by destruct (first_error lib _ cs2) as [[? ?]|].
Qed.

(** X12. On a run that returns, when the layout has one position per node of
    the graph, in the graph's order, every node gets one label, its own
    identifier: the bold labels are those of the included nodes and the plain
    ones those of the excluded nodes. *)
Theorem every_node_is_labelled self gr d r t :
  postprocess spring_layout lib self d [] = (inr r, t) →
  g self = Some gr →
  (spring_layout gr).*1 = nodes gr →
  ∃ l, classify spring_layout self d [] = (inr l, []) ∧
    included_pos l = (λ n, (n, n)) <$> included_nodes l ∧
    excluded_pos l = (λ n, (n, n)) <$> excluded_nodes l ∧
    label_draws t
    = [ ((λ n, (n, n)) <$> included_nodes l, font_size self, Some "bold",
         "white");
        ((λ n, (n, n)) <$> excluded_nodes l, font_size self, None, "white") ].
Proof.
  intros Hrun Hg Hkeys.
  destruct (returned_run _ _ _ _ Hrun) as (gr' & l & Hg' & Hty & Hl & _ & ->).
  rewrite Hg in Hg'. injection Hg' as <-.
  assert (∀ P : Node → Prop, ∀ HP : ∀ n, Decision (P n),
    (λ item : Node * Coord, (item.1, item.1))
      <$> filter (λ item, P item.1) (spring_layout gr)
    = (λ n, (n, n)) <$> filter P (nodes gr)) as Hlab.
  { intros P HP. rewrite <- Hkeys, (filter_fmap_key fst P).
    by rewrite <- list_fmap_compose. }
  assert (included_pos l = (λ n, (n, n)) <$> included_nodes l ∧
          excluded_pos l = (λ n, (n, n)) <$> excluded_nodes l) as [Hi He].
  { destruct Hty as [Hty|Hty].
    - rewrite (classify_path _ _ _ _ _ Hg Hty) in Hl. injection Hl as <-.
      cbn [included_pos excluded_pos included_nodes excluded_nodes].
      split; [exact (Hlab (λ n, n ∈ data d) (λ n, decide (n ∈ data d)))
             |exact (Hlab (λ n, n ∉ data d) (λ n, decide (n ∉ data d)))].
    - rewrite (classify_set _ _ _ _ _ Hg Hty) in Hl. injection Hl as <-.
      cbn [included_pos excluded_pos included_nodes excluded_nodes].
      split; [exact (Hlab (λ n, n ∈ data d) (λ n, decide (n ∈ data d)))
             |exact (Hlab (λ n, n ∉ data d) (λ n, decide (n ∉ data d)))]. }
  exists l. split_and!; try done.
  by rewrite calls_labels, Hi, He.
Qed.


(** X14. A run that returns has written the figure once, to [save_path], when
    that is not empty, and not at all when it is; it has opened the window
    once when [show_plot] is set and not otherwise.  The file is written
    after the last drawing call, legend included, and before the window
    opens: the trace is six or seven drawing calls, then the [savefig] call,
    then the [show] call. *)
Theorem saving_and_showing self d r t :
  postprocess spring_layout lib self d [] = (inr r, t) →
  savefig_calls t
  = (if decide (save_path self = "") then [] else [save_path self]) ∧
  show_calls t = (if show_plot self then 1 else 0)%nat ∧
  ∃ drawing,
    t = drawing ++ (plt_savefig <$> savefig_calls t)
                ++ replicate (show_calls t) plt_show ∧
    savefig_calls drawing = [] ∧ show_calls drawing = 0%nat ∧
    length drawing
    = (if highlight_nodes self || highlight_edges self then 7 else 6)%nat.
Proof.
  intros Hrun.
  destruct (returned_run _ _ _ _ Hrun) as (gr & l & Hg & _ & Hl & -> & ->).
  unfold calls_of_run.
  assert (savefig_calls (drawing_calls self gr l) = [] ∧
          show_calls (drawing_calls self gr l) = 0%nat ∧
          length (drawing_calls self gr l)
          = (if highlight_nodes self || highlight_edges self then 7 else 6)%nat)
    as (Hsave & Hshow & Hlen).
  { unfold drawing_calls.
    by destruct (highlight_nodes self || highlight_edges self). }
  destruct (decide (save_path self = "")) as [Hs|Hs].
  - rewrite Hs. change (("" =? "")%string) with true. cbv iota.
    unfold savefig_calls, show_calls in *.
    rewrite !omap_app, !filter_app, !length_app, Hsave, Hshow.
    destruct (show_plot self);
      (split; [done|]; split; [done|];
       exists (drawing_calls self gr l); by split_and!).
  - apply String.eqb_neq in Hs. rewrite Hs.
    unfold savefig_calls, show_calls in *.
    rewrite !omap_app, !filter_app, !length_app, Hsave, Hshow.
    destruct (show_plot self);
      (split; [done|]; split; [done|];
       exists (drawing_calls self gr l); by split_and!).
Qed.

(** X15. On a run that returns with a highlight flag set, the legend shows the
    colours that were used: the "Included" entry has the fill colour of the
    call for the included nodes and the line colour of the call for the
    included edges, the "Excluded" entry those of the calls for the excluded
    nodes and edges; both entries have [node_shape] as marker and
    [edge_style] as line style. *)
Theorem legend_matches_drawing self d r t :
  postprocess spring_layout lib self d [] = (inr r, t) →
  highlight_nodes self || highlight_edges self = true →
  ∃ inc exc l,
    classify spring_layout self d [] = (inr l, []) ∧
    legend_draws t = [[inc; exc]] ∧
    node_draws t = [ (included_nodes l, node_size self, markerfacecolor inc);
                     (excluded_nodes l, node_size self, markerfacecolor exc) ] ∧
    edge_draws t
    = [ (excluded_edges l, PrimFloat.mul (edge_width self) 0.8%float, color exc);
        (included_edges l, edge_width self, color inc) ] ∧
    marker inc = node_shape self ∧ marker exc = node_shape self ∧
    ls inc = edge_style self ∧ ls exc = edge_style self.
Proof.
  intros Hrun Hon.
  destruct (returned_run _ _ _ _ Hrun) as (gr & l & Hg & _ & Hl & -> & ->).
  exists (legend_included self), (legend_excluded self), l.
  split; [done|].
  unfold calls_of_run, drawing_calls, legend_included, legend_excluded.
  cbn [markerfacecolor color marker ls]. rewrite Hon.
  by destruct (highlight_nodes self), (highlight_edges self),
    (save_path self =? "")%string, (show_plot self).
Qed.

(** X16. When [plt.savefig] raises, after drawing calls that all returned, its
    exception comes out of [postprocess]; [plt.show] is not called, and the
    figure keeps the drawing calls. *)
Theorem savefig_failure_skips_show self gr d l what :
  g self = Some gr →
  classify spring_layout self d [] = (inr l, []) →
  save_path self ≠ "" →
  Line2D_error lib (legend_included self) = None →
  Line2D_error lib (legend_excluded self) = None →
  first_error lib [] (drawing_calls self gr l) = None →
  call_error lib (drawing_calls self gr l) (plt_savefig (save_path self))
  = Some what →
  postprocess spring_layout lib self d []
  = (inl (LibraryError what), drawing_calls self gr l) ∧
  show_calls (drawing_calls self gr l) = 0%nat ∧
  savefig_calls (drawing_calls self gr l) = [].
Proof.
  intros Hg Hl Hs H1 H2 Hdraw Hsave.
  rewrite (postprocess_run _ _ self gr d l [] Hg Hl), H1, H2.
  unfold calls_of_run. apply String.eqb_neq in Hs. rewrite Hs.
  rewrite first_error_app, Hdraw. cbn [app first_error]. rewrite Hsave.
  rewrite app_nil_r. split; [done|].
  unfold drawing_calls.
  by destruct (highlight_nodes self || highlight_edges self).
Qed.

(** X17. The two [Line2D] objects of the legend are built on every run, with
    or without highlight flag, before the first drawing call: when the
    constructor refuses the arguments of either, on a loaded object in path or
    set mode, its exception comes out of [postprocess] and the figure is as it
    was. *)
Theorem legend_handles_built_first self gr d s what :
  g self = Some gr →
  solution_type self = "path" ∨ solution_type self = "set" →
  Line2D_error lib (legend_included self) = Some what
  ∨ (Line2D_error lib (legend_included self) = None ∧
     Line2D_error lib (legend_excluded self) = Some what) →
  postprocess spring_layout lib self d s = (inl (LibraryError what), s).
Proof.
  intros Hg Hty Herr.
  destruct (classify_valid spring_layout self gr d s Hg Hty) as [l Hl].
  rewrite (postprocess_run _ _ self gr d l s Hg Hl).
  destruct Herr as [->|[-> ->]]; done.
Qed.

End Figure.

(** ** The further properties on the square *)

Lemma square_edges_join_nodes : edges_join_nodes Square.graph.
Proof.
  intros e He. apply list_elem_of_In in He. cbn in He.
  destruct He as [<-|[<-|[<-|[<-|[]]]]];
    split; apply list_elem_of_In; cbn; auto 10.
Qed.

Lemma square_layout_keys : (Square.layout Square.graph).*1 = nodes Square.graph.
Proof. reflexivity. Qed.

(** X3 on the square, in set mode. *)
Lemma empty_solution_excludes_all_square :
  ∃ l, classify Square.layout (Square.loaded "set") (mkOther []) []
       = (inr l, []) ∧
    included_nodes l = [] ∧ excluded_nodes l = nodes Square.graph ∧
    included_edges l = [] ∧ excluded_edges l = edges Square.graph ∧
    included_pos l = [].
Proof.
  apply (empty_solution_excludes_all Square.layout (Square.loaded "set")
           Square.graph []).
  - reflexivity.
  - right. reflexivity.
Defined.

(** X4 on the square, with the path [A]. *)
Lemma single_element_path_square :
  ∃ l, classify Square.layout (Square.loaded "path") (mkOther ["A"]) []
       = (inr l, []) ∧
    included_edges l = [] ∧ excluded_edges l = edges Square.graph ∧
    (∀ n, n ∈ included_nodes l ↔ n = "A" ∧ "A" ∈ nodes Square.graph).
Proof.
  apply (single_element_path Square.layout (Square.loaded "path")
           Square.graph "A" []); reflexivity.
Defined.

(** X5 on the square, in path mode with [A, B]. *)
Lemma lists_keep_graph_order_square :
  ∃ l, classify Square.layout (Square.loaded "path") Square.pair []
       = (inr l, []) ∧
    included_nodes l `sublist_of` nodes Square.graph ∧
    excluded_nodes l `sublist_of` nodes Square.graph ∧
    included_edges l `sublist_of` edges Square.graph ∧
    excluded_edges l `sublist_of` edges Square.graph ∧
    (NoDup (nodes Square.graph) →
       NoDup (included_nodes l) ∧ NoDup (excluded_nodes l)) ∧
    (NoDup (edges Square.graph) →
       NoDup (included_edges l) ∧ NoDup (excluded_edges l)).
Proof.
  apply (lists_keep_graph_order Square.layout (Square.loaded "path")
           Square.graph Square.pair []).
  - reflexivity.
  - left. reflexivity.
Defined.

(** X6 on the square with [A, B, C, D]. *)
Lemma path_edges_within_set_edges_square :
  ∃ lp ls,
    classify Square.layout (Square.loaded "path") Square.cycle [] = (inr lp, []) ∧
    classify Square.layout (Square.loaded "set") Square.cycle [] = (inr ls, []) ∧
    included_edges lp `sublist_of` included_edges ls ∧
    excluded_edges ls `sublist_of` excluded_edges lp ∧
    included_nodes lp = included_nodes ls ∧
    excluded_nodes lp = excluded_nodes ls.
Proof.
  apply (path_edges_within_set_edges Square.layout (Square.loaded "path")
           (Square.loaded "set") Square.graph Square.cycle []); reflexivity.
Defined.

(** X7 on the square, in set mode with [A, B]. *)
Lemma included_edges_join_included_nodes_square :
  ∃ l, classify Square.layout (Square.loaded "set") Square.pair []
       = (inr l, []) ∧
    ∀ e, e ∈ included_edges l →
         e.1 ∈ included_nodes l ∧ e.2 ∈ included_nodes l.
Proof.
  apply (included_edges_join_included_nodes Square.layout
           (Square.loaded "set") Square.graph Square.pair []).
  - reflexivity.
  - right. reflexivity.
  - exact square_edges_join_nodes.
Defined.

(** X8 on the square: [A, C] and [Z, A, C], where [Z] is no node. *)
Lemma set_mode_ignores_foreign_elements_square :
  ∃ l1 l2,
    classify Square.layout (Square.loaded "set") Square.diagonal []
    = (inr l1, []) ∧
    classify Square.layout (Square.loaded "set") (mkOther ["Z"; "A"; "C"]) []
    = (inr l2, []) ∧
    included_nodes l1 = included_nodes l2 ∧
    excluded_nodes l1 = excluded_nodes l2 ∧
    included_edges l1 = included_edges l2 ∧
    excluded_edges l1 = excluded_edges l2.
Proof.
  apply (set_mode_ignores_foreign_elements Square.layout (Square.loaded "set")
           Square.graph Square.diagonal (mkOther ["Z"; "A"; "C"]) []).
  - reflexivity.
  - reflexivity.
  - exact square_edges_join_nodes.
  - intros x Hx. apply list_elem_of_In in Hx. cbn in Hx.
    cbn [data Square.diagonal]. rewrite !elem_of_cons, !elem_of_nil.
    destruct Hx as [<-|[<-|[<-|[<-|[]]]]]; intuition congruence.
Defined.

(** X9 on the square: [A, C] within [A, B, C, D]. *)
Lemma set_mode_monotone_square :
  ∃ l1 l2,
    classify Square.layout (Square.loaded "set") Square.diagonal []
    = (inr l1, []) ∧
    classify Square.layout (Square.loaded "set") Square.cycle []
    = (inr l2, []) ∧
    included_nodes l1 `sublist_of` included_nodes l2 ∧
    excluded_nodes l2 `sublist_of` excluded_nodes l1 ∧
    included_edges l1 `sublist_of` included_edges l2 ∧
    excluded_edges l2 `sublist_of` excluded_edges l1.
Proof.
  apply (set_mode_monotone Square.layout (Square.loaded "set")
           Square.graph Square.diagonal Square.cycle []).
  - reflexivity.
  - reflexivity.
  - intros x. cbn [data Square.diagonal Square.cycle].
    rewrite !elem_of_cons, !elem_of_nil. tauto.
Defined.

(** X10 on the square: [A, B, C, D] and [D, C, B, A]. *)
Lemma path_mode_reversal_square :
  ∃ l1 l2,
    classify Square.layout (Square.loaded "path") Square.cycle []
    = (inr l1, []) ∧
    classify Square.layout (Square.loaded "path")
      (mkOther (reverse (data Square.cycle))) [] = (inr l2, []) ∧
    included_nodes l1 = included_nodes l2 ∧
    excluded_nodes l1 = excluded_nodes l2 ∧
    included_edges l1 = included_edges l2 ∧
    excluded_edges l1 = excluded_edges l2.
Proof.
  apply (path_mode_reversal Square.layout (Square.loaded "path")
           Square.graph Square.cycle []); reflexivity.
Defined.

(** X11 on the square: [A, B, C] and [B, C, A]. *)
Lemma path_mode_rotation_square :
  ∃ l1 l2,
    classify Square.layout (Square.loaded "path") (mkOther ("A" :: ["B"; "C"])) []
    = (inr l1, []) ∧
    classify Square.layout (Square.loaded "path") (mkOther (["B"; "C"] ++ ["A"])) []
    = (inr l2, []) ∧
    included_nodes l1 = included_nodes l2 ∧
    excluded_nodes l1 = excluded_nodes l2 ∧
    included_edges l1 = included_edges l2 ∧
    excluded_edges l1 = excluded_edges l2.
Proof.
  apply (path_mode_rotation Square.layout (Square.loaded "path")
           Square.graph "A" ["B"; "C"] []); reflexivity.
Defined.

(** X12 on the square, whose layout lists the nodes in the graph's order. *)
Lemma every_node_is_labelled_square :
  let self := Square.loaded "set" in
  let t := trace (postprocess Square.layout Square.library self
                    Square.diagonal) in
  ∃ l, classify Square.layout self Square.diagonal [] = (inr l, []) ∧
    included_pos l = (λ n, (n, n)) <$> included_nodes l ∧
    excluded_pos l = (λ n, (n, n)) <$> excluded_nodes l ∧
    label_draws t
    = [ ((λ n, (n, n)) <$> included_nodes l, font_size self, Some "bold",
         "white");
        ((λ n, (n, n)) <$> excluded_nodes l, font_size self, None, "white") ].
Proof.
  apply (every_node_is_labelled Square.layout Square.library
           (Square.loaded "set") Square.graph Square.diagonal
           (Data Square.diagonal)).
  - reflexivity.
  - reflexivity.
  - exact square_layout_keys.
Defined.


(** X14 on the square, with the file [out.png] and the window. *)
Lemma saving_and_showing_square :
  let self := Square.styled "o" "solid" "out.png" in
  let t := trace (postprocess Square.layout Square.library self Square.pair) in
  savefig_calls t
  = (if decide (save_path self = "") then [] else [save_path self]) ∧
  show_calls t = (if show_plot self then 1 else 0)%nat ∧
  ∃ drawing,
    t = drawing ++ (plt_savefig <$> savefig_calls t)
                ++ replicate (show_calls t) plt_show ∧
    savefig_calls drawing = [] ∧ show_calls drawing = 0%nat ∧
    length drawing
    = (if highlight_nodes self || highlight_edges self then 7 else 6)%nat.
Proof.
  apply (saving_and_showing Square.layout Square.library
           (Square.styled "o" "solid" "out.png") Square.pair
           (Data Square.pair)).
  reflexivity.
Defined.

(** X15 on the square with both flags set. *)
Lemma legend_matches_drawing_square :
  let self := Square.highlighted "path" in
  let t := trace (postprocess Square.layout Square.library self Square.pair) in
  ∃ inc exc l,
    classify Square.layout self Square.pair [] = (inr l, []) ∧
    legend_draws t = [[inc; exc]] ∧
    node_draws t = [ (included_nodes l, node_size self, markerfacecolor inc);
                     (excluded_nodes l, node_size self, markerfacecolor exc) ] ∧
    edge_draws t
    = [ (excluded_edges l, PrimFloat.mul (edge_width self) 0.8%float, color exc);
        (included_edges l, edge_width self, color inc) ] ∧
    marker inc = node_shape self ∧ marker exc = node_shape self ∧
    ls inc = edge_style self ∧ ls exc = edge_style self.
Proof.
  apply (legend_matches_drawing Square.layout Square.library
           (Square.highlighted "path") Square.pair (Data Square.pair)).
  - reflexivity.
  - reflexivity.
Defined.

(** X16 on the square, with the file [out.xyz], which the library refuses. *)
Lemma savefig_failure_skips_show_square :
  ∃ l, classify Square.layout (Square.styled "o" "solid" "out.xyz")
         Square.pair [] = (inr l, []) ∧
    postprocess Square.layout Square.library
      (Square.styled "o" "solid" "out.xyz") Square.pair []
    = (inl (LibraryError "ValueError: Format 'xyz' is not supported"),
       drawing_calls (Square.styled "o" "solid" "out.xyz") Square.graph l) ∧
    show_calls
      (drawing_calls (Square.styled "o" "solid" "out.xyz") Square.graph l)
    = 0%nat ∧
    savefig_calls
      (drawing_calls (Square.styled "o" "solid" "out.xyz") Square.graph l)
    = [].
Proof.
  eexists. split; [reflexivity|].
  apply (savefig_failure_skips_show Square.layout Square.library
           (Square.styled "o" "solid" "out.xyz") Square.graph Square.pair).
  - reflexivity.
  - reflexivity.
  - discriminate.
  - reflexivity.
  - reflexivity.
  - reflexivity.
  - reflexivity.
Defined.

(** X17 on the square, without highlight flag and with the line style [wavy],
    which the [Line2D] constructor refuses. *)
Lemma legend_handles_built_first_square :
  let self := with_shape_and_style (Square.loaded "path") "o" "wavy" in
  highlight_nodes self || highlight_edges self = false ∧
  postprocess Square.layout Square.library self Square.pair []
  = (inl (LibraryError "ValueError: 'wavy' is not a valid value for ls"), []).
Proof.
  split; [reflexivity|].
  apply (legend_handles_built_first Square.layout Square.library
           (with_shape_and_style (Square.loaded "path") "o" "wavy")
           Square.graph Square.pair []).
  - reflexivity.
  - left. reflexivity.
  - left. reflexivity.
Defined.
